(** * Plugin loader (src/Week6/C_1/problem_C_1.py): a shallow embedding

    The module under study builds a processing pipeline from a JSON
    configuration: [load_config], [resolve_module_name], [load_plugins]
    (wrapped in [functools.lru_cache(maxsize=32)]), [build_pipeline] and the
    orchestrating [init_pipeline] with its per-function [_pipeline_cache].

    Python values are modelled by [PyObj].  Callable objects are referred to
    by an identifier ([PFunc fid]); the code of every function is fixed and
    given by [call_fn] (a Section variable).  JSON numbers are modelled as
    integers only. *)

From Stdlib Require Import List String Ascii ZArith Bool Arith Lia.
#[local] Set Warnings "-register-all".
Import ListNotations.
Open Scope string_scope.
Open Scope list_scope.

(** ** Python objects *)

Inductive PyObj : Type :=
| PNone
| PBool (b : bool)
| PInt (z : Z)
| PStr (s : string)
| PList (l : list PyObj)
| PDict (d : list (PyObj * PyObj))
| PFunc (fid : nat).

(** Structural equality, used for dictionary keys and cache keys. *)
Fixpoint py_eqb (a b : PyObj) : bool :=
  match a, b with
  | PNone, PNone => true
  | PBool x, PBool y => Bool.eqb x y
  | PInt x, PInt y => Z.eqb x y
  | PStr x, PStr y => String.eqb x y
  | PList xs, PList ys =>
      (fix go (xs ys : list PyObj) : bool :=
         match xs, ys with
         | [], [] => true
         | x :: xs', y :: ys' => py_eqb x y && go xs' ys'
         | _, _ => false
         end) xs ys
  | PDict xs, PDict ys =>
      (fix go (xs ys : list (PyObj * PyObj)) : bool :=
         match xs, ys with
         | [], [] => true
         | (k, v) :: xs', (k', v') :: ys' =>
             py_eqb k k' && py_eqb v v' && go xs' ys'
         | _, _ => false
         end) xs ys
  | PFunc f, PFunc g => Nat.eqb f g
  | _, _ => false
  end.

(** Python truthiness ([bool(x)]). *)
Definition truthy (o : PyObj) : bool :=
  match o with
  | PNone => false
  | PBool b => b
  | PInt z => negb (Z.eqb z 0)
  | PStr s => negb (String.eqb s "")
  | PList l => match l with [] => false | _ => true end
  | PDict d => match d with [] => false | _ => true end
  | PFunc _ => true
  end.

(** [callable(x)] *)
Definition callable (o : PyObj) : bool :=
  match o with PFunc _ => true | _ => false end.

(** [hash(x)] succeeds (used by [functools.lru_cache]). *)
Definition hashable (o : PyObj) : bool :=
  match o with PList _ | PDict _ => false | _ => true end.

(** [k in d] and [d[k]] for an arbitrary key. *)
Fixpoint dict_get (d : list (PyObj * PyObj)) (k : PyObj) : option PyObj :=
  match d with
  | [] => None
  | (k', v) :: d' => if py_eqb k k' then Some v else dict_get d' k
  end.

Definition dict_has (d : list (PyObj * PyObj)) (k : PyObj) : bool :=
  match dict_get d k with Some _ => true | None => false end.

(** ** Exceptions

    The classes of the exceptions that occur, with the hierarchy of the
    source: [PluginLoaderError(Exception)] and its three subclasses. *)

Inductive PyClass : Type :=
| BaseException | Exception
| PluginLoaderError | ConfigError | RegistryError | PipelineError
| ImportError | ModuleNotFoundError | JSONDecodeError
| ValueError | TypeError | AttributeError | KeyError | IndexError
| KeyboardInterrupt.

Definition PyClass_eqb (a b : PyClass) : bool :=
  match a, b with
  | BaseException, BaseException | Exception, Exception
  | PluginLoaderError, PluginLoaderError | ConfigError, ConfigError
  | RegistryError, RegistryError | PipelineError, PipelineError
  | ImportError, ImportError | ModuleNotFoundError, ModuleNotFoundError
  | JSONDecodeError, JSONDecodeError | ValueError, ValueError
  | TypeError, TypeError | AttributeError, AttributeError
  | KeyError, KeyError | IndexError, IndexError
  | KeyboardInterrupt, KeyboardInterrupt => true
  | _, _ => false
  end.

(** The method resolution order of each class (the class and its bases). *)
Definition mro (c : PyClass) : list PyClass :=
  match c with
  | BaseException => [BaseException]
  | Exception => [Exception; BaseException]
  | PluginLoaderError => [PluginLoaderError; Exception; BaseException]
  | ConfigError | RegistryError | PipelineError =>
      [c; PluginLoaderError; Exception; BaseException]
  | ImportError => [ImportError; Exception; BaseException]
  | ModuleNotFoundError => [ModuleNotFoundError; ImportError; Exception; BaseException]
  | JSONDecodeError => [JSONDecodeError; ValueError; Exception; BaseException]
  | ValueError | TypeError | AttributeError => [c; Exception; BaseException]
  | KeyError | IndexError => [c; Exception; BaseException]
  | KeyboardInterrupt => [KeyboardInterrupt; BaseException]
  end.

Definition issubclass (c d : PyClass) : bool :=
  existsb (PyClass_eqb d) (mro c).

(** The payload of an exception: the data its f-string message is
    rendered from. *)
Inductive Msg : Type :=
(* load_config *)
| MConfigNotFound (path : string)
| MInvalidJson (path : string)
| MNotObject (path : string)
(* init_pipeline and _validate_steps_list *)
| MNoSteps
| MStepsNotList
| MStepsEmpty
| MInvalidEntry (i : nat) (v : PyObj)
(* load_plugins and _validate_registry *)
| MModuleNotFound (m : string)
| MFactoryFailed (m : string)
| MGetRegistryFailed (m : string)
| MNoRegistry (m : string)
| MRegistryNotDict
| MKeyNotStr (k : PyObj)
| MNotCallable (name : string)
(* build_pipeline and the pipeline closure *)
| MInvalidStepName (i : nat) (s : PyObj)
| MUnknownSteps (missing : list PyObj) (available : list PyObj)
| MStepError (name : PyObj)
(* any other exception, with its text *)
| MText (s : string).

Inductive exn : Type :=
  Exn { exc_class : PyClass; exc_msg : Msg; exc_cause : option exn }.

(** [isinstance(e, C)] *)
Definition isinstance (e : exn) (c : PyClass) : bool :=
  issubclass (exc_class e) c.

(** ** Results and the state/error monad *)

Inductive Res (A : Type) : Type :=
| Ok (a : A)
| Err (e : exn).
Arguments Ok {A} a.
Arguments Err {A} e.

Definition res_bind {A B} (r : Res A) (k : A -> Res B) : Res B :=
  match r with Ok a => k a | Err e => Err e end.

(** ** The environment of a call

    A call sees the process environment ([os.getenv("PLUGINS_MODULE")]),
    the file system (what [json.load] makes of a path) and the importable
    modules (what [importlib.import_module] gives: the module's attributes
    or the exception it raises). *)

Inductive FileContent : Type :=
| Parsed (o : PyObj)        (* valid JSON, parsed *)
| Unparseable               (* json.JSONDecodeError *)
| Unreadable (e : exn).     (* any other error while opening/reading *)

Record World : Type := mkWorld {
  env_PLUGINS_MODULE : option string;
  fs : string -> option FileContent;
  modules : string -> Res (list (string * PyObj))
}.

(** Observable calls of the components, recorded in the order they happen. *)
Inductive Event : Type :=
| EvLoadConfig
| EvValidateSteps
| EvResolve
| EvLoadPlugins (module_name : PyObj)   (* call of the lru_cache wrapper *)
| EvImport (module_name : PyObj)        (* execution of load_plugins' body *)
| EvBuild (steps : list PyObj).         (* call of build_pipeline *)

Definition Registry := list (PyObj * PyObj).

(** The closure [pipeline] returned by [build_pipeline]: the captured
    [step_list] and [callables]; [pid] is its object identity. *)
Record Pipeline : Type := mkPipeline {
  pid : nat;
  step_list : list PyObj;
  callables : list PyObj
}.

(** Cache key [(module_name, tuple(steps))]. *)
Definition Key : Type := (PyObj * list string)%type.

Fixpoint strs_eqb (l l' : list string) : bool :=
  match l, l' with
  | [], [] => true
  | x :: l1, y :: l1' => String.eqb x y && strs_eqb l1 l1'
  | _, _ => false
  end.

(** Tuple equality [==] on cache keys. *)
Definition key_eqb (k k' : Key) : bool :=
  py_eqb (fst k) (fst k') && strs_eqb (snd k) (snd k').

(** Process state: [init_pipeline._pipeline_cache], the [lru_cache] of
    [load_plugins] (most recently used first), the next object identity,
    and the log of component calls. *)
Record State : Type := mkState {
  pcache : list (Key * Pipeline);
  lru : list (PyObj * Registry);
  next_id : nat;
  log : list Event
}.

Definition init_state : State := mkState [] [] 0 [].

Definition set_pcache (c : list (Key * Pipeline)) (st : State) : State :=
  mkState c (lru st) (next_id st) (log st).
Definition set_lru (l : list (PyObj * Registry)) (st : State) : State :=
  mkState (pcache st) l (next_id st) (log st).
Definition set_next_id (n : nat) (st : State) : State :=
  mkState (pcache st) (lru st) n (log st).
Definition set_log (l : list Event) (st : State) : State :=
  mkState (pcache st) (lru st) (next_id st) l.

(** State and exceptions: an exception keeps the state reached so far. *)
Definition M (A : Type) : Type := State -> Res A * State.

Definition ret {A} (a : A) : M A := fun st => (Ok a, st).
Definition bind {A B} (m : M A) (k : A -> M B) : M B :=
  fun st => match m st with
            | (Ok a, st') => k a st'
            | (Err e, st') => (Err e, st')
            end.
Definition raise {A} (e : exn) : M A := fun st => (Err e, st).
Definition lift {A} (r : Res A) : M A := fun st => (r, st).
Definition emit (ev : Event) : M unit :=
  fun st => (Ok tt, set_log (log st ++ [ev]) st).

Notation "x <- m ;; k" := (bind m (fun x => k))
  (at level 61, m at next level, right associativity).
Notation "m ;;; k" := (bind m (fun _ => k))
  (at level 61, right associativity).

(** Association-list helpers. *)
Fixpoint attr_get (attrs : list (string * PyObj)) (a : string) : option PyObj :=
  match attrs with
  | [] => None
  | (a', v) :: attrs' => if String.eqb a a' then Some v else attr_get attrs' a
  end.

Fixpoint pc_lookup (k : Key) (c : list (Key * Pipeline)) : option Pipeline :=
  match c with
  | [] => None
  | (k', p) :: c' => if key_eqb k k' then Some p else pc_lookup k c'
  end.

Fixpoint lru_lookup (k : PyObj) (l : list (PyObj * Registry)) : option Registry :=
  match l with
  | [] => None
  | (k', r) :: l' => if py_eqb k k' then Some r else lru_lookup k l'
  end.

Definition lru_remove (k : PyObj) (l : list (PyObj * Registry)) :=
  filter (fun e => negb (py_eqb k (fst e))) l.

Definition lru_maxsize : nat := 32.

Definition config_error (m : Msg) : exn := Exn ConfigError m None.
Definition registry_error (m : Msg) (cause : option exn) : exn :=
  Exn RegistryError m cause.
Definition pipeline_error (m : Msg) (cause : option exn) : exn :=
  Exn PipelineError m cause.

(** ** The module's functions *)

Section PluginLoader.

(** The code of every function object: [call_fn fid args] is the outcome of
    calling the function [PFunc fid] with positional arguments [args]. *)
Variable call_fn : nat -> list PyObj -> Res PyObj.

Definition py_call (f : PyObj) (args : list PyObj) : Res PyObj :=
  match f with
  | PFunc fid => call_fn fid args
  | _ => Err (Exn TypeError (MText "object is not callable") None)
  end.

(** [load_config(path)]: returns the top-level dict (its items). *)
Definition load_config (w : World) (path : string) : Res (list (PyObj * PyObj)) :=
  match fs w path with
  | None => Err (config_error (MConfigNotFound path))
  | Some Unparseable =>
      Err (Exn ConfigError (MInvalidJson path)
               (Some (Exn JSONDecodeError (MText "Expecting value") None)))
  | Some (Unreadable e) => Err e
  | Some (Parsed (PDict cfg)) => Ok cfg
  | Some (Parsed _) => Err (config_error (MNotObject path))
  end.

(** [resolve_module_name(config)], with [os.getenv("PLUGINS_MODULE")]
    passed as [env]. *)
Definition resolve_module_name (env : option string) (config : PyObj) : PyObj :=
  let env_obj := match env with Some e => PStr e | None => PNone end in
  if truthy env_obj then env_obj else
  let module_name :=
    match config with
    | PDict d => match dict_get d (PStr "module") with Some v => v | None => PNone end
    | _ => PNone
    end in
  if truthy module_name then module_name else PStr "plugins".

(** [_validate_registry(reg)] followed by [return reg] in [load_plugins]:
    the Python function itself returns [None] and only raises; [Ok d] is
    the dict that [load_plugins] returns once the validation has passed. *)
Fixpoint validate_registry_items (items : Registry) : Res unit :=
  match items with
  | [] => Ok tt
  | (name, fn) :: items' =>
      match name with
      | PStr n =>
          if callable fn then validate_registry_items items'
          else Err (registry_error (MNotCallable n) None)
      | _ => Err (registry_error (MKeyNotStr name) None)
      end
  end.

Definition validate_registry (registry : PyObj) : Res Registry :=
  match registry with
  | PDict d => res_bind (validate_registry_items d) (fun _ => Ok d)
  | _ => Err (registry_error MRegistryNotDict None)
  end.

(** [_validate_steps_list(steps)]: the loop over [enumerate(steps)]. *)
Fixpoint validate_steps_from (i : nat) (steps : list PyObj) : Res (list string) :=
  match steps with
  | [] => Ok []
  | s :: steps' =>
      match s with
      | PStr x =>
          if truthy s then res_bind (validate_steps_from (S i) steps') (fun v => Ok (x :: v))
          else Err (config_error (MInvalidEntry i s))
      | _ => Err (config_error (MInvalidEntry i s))
      end
  end.

Definition validate_steps_list (steps : PyObj) : Res (list string) :=
  match steps with
  | PList l =>
      match l with
      | [] => Err (config_error MStepsEmpty)
      | _ => validate_steps_from 0 l
      end
  | _ => Err (config_error MStepsNotList)
  end.

(** Calling a registry factory inside [try ... except Exception]. *)
Definition call_factory (f : PyObj) (wrap : Msg) : Res PyObj :=
  match py_call f [] with
  | Ok r => Ok r
  | Err e => if isinstance e Exception then Err (registry_error wrap (Some e)) else Err e
  end.

(** The body of [load_plugins(module_name)] (what runs on a cache miss). *)
Definition load_plugins_body (w : World) (module_name : PyObj) : Res Registry :=
  match module_name with
  | PStr m =>
      match modules w m with
      | Err e =>
          if isinstance e ModuleNotFoundError
          then Err (registry_error (MModuleNotFound m) (Some e))
          else Err e
      | Ok attrs =>
          let reg :=
            match attr_get attrs "REGISTRY" with
            | Some r => if callable r then call_factory r (MFactoryFailed m) else Ok r
            | None =>
                match attr_get attrs "get_registry" with
                | Some g =>
                    if callable g then call_factory g (MGetRegistryFailed m)
                    else Err (registry_error (MNoRegistry m) None)
                | None => Err (registry_error (MNoRegistry m) None)
                end
            end in
          res_bind reg validate_registry
      end
  (* importlib.import_module on a non-str name: name.startswith fails *)
  | _ => Err (Exn AttributeError (MText "object has no attribute 'startswith'") None)
  end.

(** [load_plugins] as decorated with [functools.lru_cache(maxsize=32)]:
    a hit moves the entry to the front; a miss runs the body and, on
    success only, stores the result, dropping the least recently used
    entry beyond [lru_maxsize]. *)
Definition load_plugins (w : World) (module_name : PyObj) : M Registry :=
  emit (EvLoadPlugins module_name) ;;;
  fun st =>
    if negb (hashable module_name)
    then (Err (Exn TypeError (MText "unhashable type") None), st)
    else
      match lru_lookup module_name (lru st) with
      | Some r =>
          (Ok r, set_lru ((module_name, r) :: lru_remove module_name (lru st)) st)
      | None =>
          let st1 := set_log (log st ++ [EvImport module_name]) st in
          match load_plugins_body w module_name with
          | Ok r => (Ok r, set_lru (firstn lru_maxsize ((module_name, r) :: lru st1)) st1)
          | Err e => (Err e, st1)
          end
      end.

(** [build_pipeline(registry, steps)]: the name check, the missing-name
    report, the pre-resolution of the callables, and the allocation of the
    returned closure. *)
Fixpoint check_step_names (i : nat) (steps : list PyObj) : Res unit :=
  match steps with
  | [] => Ok tt
  | s :: steps' =>
      match s with
      | PStr _ =>
          if truthy s then check_step_names (S i) steps'
          else Err (pipeline_error (MInvalidStepName i s) None)
      | _ => Err (pipeline_error (MInvalidStepName i s) None)
      end
  end.

Definition missing_steps (registry : Registry) (steps : list PyObj) : list PyObj :=
  filter (fun s => negb (dict_has registry s)) steps.

Fixpoint resolve_callables (registry : Registry) (steps : list PyObj) : Res (list PyObj) :=
  match steps with
  | [] => Ok []
  | s :: steps' =>
      match dict_get registry s with
      | Some fn => res_bind (resolve_callables registry steps') (fun fns => Ok (fn :: fns))
      | None => Err (Exn KeyError (MText "missing key") None)
      end
  end.

Definition build_pipeline (registry : Registry) (steps : list PyObj) : M Pipeline :=
  emit (EvBuild steps) ;;;
  lift (check_step_names 0 steps) ;;;
  let missing := missing_steps registry steps in
  match missing with
  | _ :: _ =>
      raise (pipeline_error (MUnknownSteps missing (firstn 20 (map fst registry))) None)
  | [] =>
      fns <- lift (resolve_callables registry steps) ;;
      fun st => (Ok (mkPipeline (next_id st) steps fns), set_next_id (S (next_id st)) st)
  end.

(** The closure [pipeline(data)]: the result and the indices of the steps
    whose callable was invoked. *)
Fixpoint run_from (names : list PyObj) (idx : nat) (fns : list PyObj) (value : PyObj)
  : Res PyObj * list nat :=
  match fns with
  | [] => (Ok value, [])
  | fn :: fns' =>
      match py_call fn [value] with
      | Ok v => let (r, tr) := run_from names (S idx) fns' v in (r, idx :: tr)
      | Err exc =>
          if isinstance exc Exception then
            match nth_error names idx with
            | Some name => (Err (pipeline_error (MStepError name) (Some exc)), [idx])
            | None => (Err (Exn IndexError (MText "list index out of range") None), [idx])
            end
          else (Err exc, [idx])
      end
  end.

Definition run_pipeline (p : Pipeline) (data : PyObj) : Res PyObj * list nat :=
  run_from (step_list p) 0 (callables p) data.

(** [init_pipeline(config_path)]. *)
Definition init_pipeline (w : World) (config_path : string) : M Pipeline :=
  emit EvLoadConfig ;;;
  config <- lift (load_config w config_path) ;;
  (if dict_has config (PStr "steps") then ret tt
   else raise (config_error MNoSteps)) ;;;
  emit EvValidateSteps ;;;
  steps <- lift (match dict_get config (PStr "steps") with
                 | Some v => validate_steps_list v
                 | None => Err (Exn KeyError (MText "steps") None)
                 end) ;;
  emit EvResolve ;;;
  let module_name := resolve_module_name (env_PLUGINS_MODULE w) (PDict config) in
  registry <- load_plugins w module_name ;;
  let key := (module_name, steps) in
  fun st =>
    match pc_lookup key (pcache st) with
    | Some p => (Ok p, st)
    | None =>
        (pipeline <- build_pipeline registry (map PStr steps) ;;
         fun st' => (Ok pipeline, set_pcache (pcache st' ++ [(key, pipeline)]) st')) st
    end.

(** The left-to-right composition of callables, each applied to the
    previous result; an exception of a callable propagates as is. *)
Fixpoint compose_calls (fns : list PyObj) (x : PyObj) : Res PyObj :=
  match fns with
  | [] => Ok x
  | fn :: fns' => res_bind (py_call fn [x]) (compose_calls fns')
  end.

End PluginLoader.

(** ** The fixture of the module's own test ([test_pipeline_basic]) *)

Definition is_py_space (c : ascii) : bool :=
  match nat_of_ascii c with
  | 32 | 9 | 10 | 11 | 12 | 13 => true
  | _ => false
  end.

Fixpoint drop_spaces (l : list ascii) : list ascii :=
  match l with
  | [] => []
  | c :: l' => if is_py_space c then drop_spaces l' else l
  end.

(** [str.strip()] *)
Definition py_strip (s : string) : string :=
  string_of_list_ascii
    (rev (drop_spaces (rev (drop_spaces (list_ascii_of_string s))))).

Definition ascii_upper (c : ascii) : ascii :=
  let n := nat_of_ascii c in
  if (Nat.leb 97 n && Nat.leb n 122)%bool then ascii_of_nat (n - 32) else c.

(** [str.upper()] on ASCII text *)
Definition py_upper (s : string) : string :=
  string_of_list_ascii (map ascii_upper (list_ascii_of_string s)).

(** [fake_upper] is [PFunc 0], [fake_strip] is [PFunc 1]. *)
Definition fake_call (fid : nat) (args : list PyObj) : Res PyObj :=
  match fid, args with
  | 0, [PStr text] => Ok (PStr (py_upper text))
  | 1, [PStr text] => Ok (PStr (py_strip text))
  | (0 | 1), [_] => Err (Exn AttributeError (MText "object has no attribute") None)
  | _, _ => Err (Exn TypeError (MText "wrong number of arguments") None)
  end.

Definition fake_plugins_registry : PyObj :=
  PDict [(PStr "upper", PFunc 0); (PStr "strip", PFunc 1)].

Definition module_not_found (m : string) : exn :=
  Exn ModuleNotFoundError (MText ("No module named " ++ m)) None.

Definition fake_modules (m : string) : Res (list (string * PyObj)) :=
  if String.eqb m "fake_plugins" then Ok [("REGISTRY", fake_plugins_registry)]
  else Err (module_not_found m).

Definition test_config : PyObj :=
  PDict [(PStr "module", PStr "fake_plugins");
         (PStr "steps", PList [PStr "strip"; PStr "upper"])].

Definition test_world : World :=
  mkWorld None
    (fun p => if String.eqb p "config.json" then Some (Parsed test_config) else None)
    fake_modules.

(** ** Derived notions used in the statements *)

(** The prefix of [init_pipeline] that computes the cache key
    [(module_name, tuple(steps))] of a configuration file. *)
Definition config_key (w : World) (config_path : string) : Res Key :=
  res_bind (load_config w config_path) (fun config =>
  if negb (dict_has config (PStr "steps")) then Err (config_error MNoSteps) else
  res_bind (match dict_get config (PStr "steps") with
            | Some v => validate_steps_list v
            | None => Err (Exn KeyError (MText "steps") None)
            end) (fun steps =>
  Ok (resolve_module_name (env_PLUGINS_MODULE w) (PDict config), steps))).

(** An entry of [steps] accepted by [_validate_steps_list]. *)
Definition step_entry_ok (v : PyObj) : bool :=
  match v with PStr x => negb (String.eqb x "") | _ => false end.

(** The [steps] field is absent, not a list, empty, or has an entry that is
    not a non-empty string. *)
Definition steps_malformed (steps : option PyObj) : Prop :=
  match steps with
  | None => True
  | Some (PList l) => l = [] \/ exists v, In v l /\ step_entry_ok v = false
  | Some _ => True
  end.

(** States reached by a process whose importable modules are [mods]: any
    sequence of calls of the module's public functions from the initial
    state. *)
Inductive reachable (cf : nat -> list PyObj -> Res PyObj)
    (mods : string -> Res (list (string * PyObj))) : State -> Prop :=
| reachable_init : reachable cf mods init_state
| reachable_init_pipeline w path st :
    reachable cf mods st -> modules w = mods ->
    reachable cf mods (snd (init_pipeline cf w path st))
| reachable_load_plugins w mn st :
    reachable cf mods st -> modules w = mods ->
    reachable cf mods (snd (load_plugins cf w mn st))
| reachable_build_pipeline reg steps st :
    reachable cf mods st ->
    reachable cf mods (snd (build_pipeline reg steps st)).

(** States reached from a given state by further calls of the module's
    public functions, the importable modules being [mods]. *)
Inductive later_state (cf : nat -> list PyObj -> Res PyObj)
    (mods : string -> Res (list (string * PyObj))) : State -> State -> Prop :=
| later_refl st : later_state cf mods st st
| later_init_pipeline w path st st' :
    modules w = mods ->
    later_state cf mods (snd (init_pipeline cf w path st)) st' -> later_state cf mods st st'
| later_load_plugins w mn st st' :
    modules w = mods ->
    later_state cf mods (snd (load_plugins cf w mn st)) st' -> later_state cf mods st st'
| later_build_pipeline reg steps st st' :
    later_state cf mods (snd (build_pipeline reg steps st)) st' -> later_state cf mods st st'.

(** Every entry of the [load_plugins] cache is what the body computes, and
    every cached pipeline binds, in order, the registry entries of its key's
    step names in the registry of its key's module. *)
Definition caches_consistent (cf : nat -> list PyObj -> Res PyObj)
    (mods : string -> Res (list (string * PyObj))) (st : State) : Prop :=
  (forall mn r, In (mn, r) (lru st) ->
     forall w, modules w = mods -> load_plugins_body cf w mn = Ok r) /\
  (forall k p, In (k, p) (pcache st) ->
     exists reg, (forall w, modules w = mods -> load_plugins_body cf w (fst k) = Ok reg) /\
       step_list p = map PStr (snd k) /\
       resolve_callables reg (map PStr (snd k)) = Ok (callables p)).

(** Consecutive calls of [init_pipeline], one per world. *)
Fixpoint run_calls (cf : nat -> list PyObj -> Res PyObj) (ws : list World)
    (config_path : string) (st : State) : State :=
  match ws with
  | [] => st
  | w :: ws' => run_calls cf ws' config_path (snd (init_pipeline cf w config_path st))
  end.

(** ** Fixtures for the concrete cases *)

(** Every module name imports, exposing the test's [REGISTRY]. *)
Definition all_modules (m : string) : Res (list (string * PyObj)) :=
  Ok [("REGISTRY", fake_plugins_registry)].

Definition steps_only_config : PyObj :=
  PDict [(PStr "steps", PList [PStr "strip"; PStr "upper"])].

(** The same configuration file, the namespace chosen by [PLUGINS_MODULE]. *)
Definition env_world (name : string) : World :=
  mkWorld (Some name)
    (fun p => if String.eqb p "config.json" then Some (Parsed steps_only_config) else None)
    all_modules.

Definition a_name (i : nat) : string := string_of_list_ascii (repeat "a"%char (S i)).

(** One call for namespace "a", then 32 calls for 32 other namespaces. *)
Definition eviction_history : State :=
  run_calls fake_call (env_world (a_name 0) :: map (fun i => env_world (a_name (S i))) (seq 0 32))
    "config.json" init_state.

(** A world with no importable module at all. *)
Definition no_modules_world : World :=
  mkWorld None
    (fun p => if String.eqb p "config.json" then Some (Parsed test_config) else None)
    (fun m => Err (module_not_found m)).

(** The test's registry after [_validate_registry]. *)
Definition fake_registry : Registry :=
  [(PStr "upper", PFunc 0); (PStr "strip", PFunc 1)].

(** A configuration whose [module] field is a JSON number. *)
Definition int_module_config : PyObj :=
  PDict [(PStr "module", PInt 42); (PStr "steps", PList [PStr "strip"])].

Definition int_module_world : World :=
  mkWorld None
    (fun p => if String.eqb p "config.json" then Some (Parsed int_module_config) else None)
    fake_modules.

(** Steps of the spec's attribution example: [a] and [c] return their
    input, [b] raises [ValueError] on "boom" and otherwise returns "boom". *)
Definition boom_exc : exn := Exn ValueError (MText "boom") None.

Definition abc_call (fid : nat) (args : list PyObj) : Res PyObj :=
  match fid, args with
  | 0, [x] => Ok x
  | 1, [x] => if py_eqb x (PStr "boom") then Err boom_exc else Ok (PStr "boom")
  | 2, [x] => Ok x
  | _, _ => Err (Exn TypeError (MText "wrong number of arguments") None)
  end.

Definition abc_registry : Registry :=
  [(PStr "a", PFunc 0); (PStr "b", PFunc 1); (PStr "c", PFunc 2)].

Definition abc_pipeline : Pipeline :=
  mkPipeline 0 [PStr "a"; PStr "b"; PStr "c"] [PFunc 0; PFunc 1; PFunc 2].

(** The pipeline ["b", "b"]. *)
Definition bb_pipeline : Pipeline :=
  mkPipeline 0 [PStr "b"; PStr "b"] [PFunc 1; PFunc 1].

(** The pipeline the test's configuration builds first. *)
Definition test_pipeline : Pipeline :=
  mkPipeline 0 [PStr "strip"; PStr "upper"] [PFunc 1; PFunc 0].

(** A state whose pipeline cache already holds the test's key. *)
Definition cached_state : State :=
  mkState [((PStr "fake_plugins", ["strip"; "upper"]), test_pipeline)] [] 1 [].

(** A configuration whose second step name is empty. *)
Definition bad_entry_world : World :=
  mkWorld None
    (fun p => if String.eqb p "config.json"
              then Some (Parsed (PDict [(PStr "steps", PList [PStr "strip"; PStr ""])]))
              else None)
    (fun m => Err (module_not_found m)).

(** ** Notions for the properties of the remaining code *)

(** An item [(name, fn)] that [_validate_registry] accepts. *)
Definition registry_entry_ok (kv : PyObj * PyObj) : bool :=
  match fst kv with PStr _ => callable (snd kv) | _ => false end.

(** The cached pipelines are pairwise distinct objects, all allocated before
    the next object identity. *)
Definition pids_fresh (st : State) : Prop :=
  NoDup (map (fun e => pid (snd e)) (pcache st)) /\
  Forall (fun e => pid (snd e) < next_id st) (pcache st).

(** A module exposing a [get_registry] function besides the test's
    [REGISTRY]. *)
Definition both_attrs_modules (m : string) : Res (list (string * PyObj)) :=
  Ok [("get_registry", PFunc 7); ("REGISTRY", fake_plugins_registry)].

Definition both_attrs_world : World :=
  mkWorld None (fun _ => None) both_attrs_modules.

(** A configuration whose [module] field is a JSON list. *)
Definition list_module_world : World :=
  mkWorld None
    (fun p => if String.eqb p "config.json"
              then Some (Parsed (PDict [(PStr "module", PList [PStr "a"]);
                                        (PStr "steps", PList [PStr "strip"])]))
              else None)
    fake_modules.

(** ** Equality lemmas *)

Lemma py_eqb_refl : forall x, py_eqb x x = true.
Proof.
  fix IH 1. intros [| b | z | s | l | d | f]; simpl.
  - reflexivity.
  - destruct b; reflexivity.
  - apply Z.eqb_refl.
  - apply String.eqb_refl.
  - revert l. fix IHl 1. intros [| y l]; [reflexivity |].
    rewrite IH. simpl. apply IHl.
  - revert d. fix IHd 1. intros [| [k v] d]; [reflexivity |].
    rewrite !IH. simpl. apply IHd.
  - apply Nat.eqb_refl.
Qed.

Lemma py_eqb_true : forall x y, py_eqb x y = true -> x = y.
Proof.
  fix IH 1. intros [| b | z | s | l | d | f] [| b' | z' | s' | l' | d' | f'];
    simpl; intro H; try discriminate H.
  - reflexivity.
  - apply Bool.eqb_prop in H. now subst.
  - apply Z.eqb_eq in H. now subst.
  - apply String.eqb_eq in H. now subst.
  - f_equal. revert l l' H. fix IHl 1. intros [| y l] [| y' l'] H; try discriminate H.
    + reflexivity.
    + apply andb_prop in H as [H1 H2]. f_equal; [apply IH | apply IHl]; assumption.
  - f_equal. revert d d' H. fix IHd 1.
    intros [| [k v] d] [| [k' v'] d'] H; try discriminate H.
    + reflexivity.
    + apply andb_prop in H as [H1 H3]. apply andb_prop in H1 as [H1 H2].
      f_equal; [f_equal; apply IH; assumption | apply IHd; assumption].
  - apply Nat.eqb_eq in H. now subst.
Qed.

Lemma strs_eqb_refl : forall l, strs_eqb l l = true.
Proof.
  induction l as [| x l IH]; simpl; [reflexivity |].
  rewrite String.eqb_refl. exact IH.
Qed.

Lemma strs_eqb_true : forall l l', strs_eqb l l' = true -> l = l'.
Proof.
  induction l as [| x l IH]; intros [| y l'] H; simpl in H; try discriminate H.
  - reflexivity.
  - apply andb_prop in H as [H1 H2]. apply String.eqb_eq in H1. subst.
    f_equal. apply IH, H2.
Qed.

Lemma key_eqb_refl : forall k, key_eqb k k = true.
Proof. intros [m s]. unfold key_eqb. simpl. now rewrite py_eqb_refl, strs_eqb_refl. Qed.

Lemma key_eqb_true : forall k k', key_eqb k k' = true -> k = k'.
Proof.
  intros [m s] [m' s'] H. unfold key_eqb in H. simpl in H.
  apply andb_prop in H as [H1 H2].
  apply py_eqb_true in H1. apply strs_eqb_true in H2. now subst.
Qed.

(** ** Lemmas about build_pipeline and the pipeline closure *)

Lemma check_step_names_err : forall steps i e,
  check_step_names i steps = Err e -> exc_class e = PipelineError.
Proof.
  induction steps as [| s steps IH]; intros i e H; simpl in H; [discriminate H |].
  destruct s; try (injection H as <-; reflexivity).
  destruct (truthy (PStr s)); [eapply IH; exact H | injection H as <-; reflexivity].
Qed.

Lemma check_step_names_strs : forall steps i,
  Forall (fun s => s <> "") steps -> check_step_names i (map PStr steps) = Ok tt.
Proof.
  induction steps as [| s steps IH]; intros i H; simpl; [reflexivity |].
  inversion H as [| ? ? Hs Hrest]; subst.
  destruct (String.eqb s "") eqn:E; simpl.
  - apply String.eqb_eq in E. contradiction.
  - apply IH, Hrest.
Qed.

Lemma resolve_callables_ok : forall reg steps,
  missing_steps reg steps = [] ->
  exists fns, resolve_callables reg steps = Ok fns /\ List.length fns = List.length steps.
Proof.
  induction steps as [| s steps IH]; intros H; simpl in *; [now exists [] |].
  unfold dict_has in H. destruct (dict_get reg s) as [f |] eqn:E; simpl in H.
  - destruct (IH H) as [fns [-> Hl]]. exists (f :: fns). simpl. now rewrite Hl.
  - discriminate H.
Qed.

Lemma build_pipeline_err : forall reg steps st e st',
  build_pipeline reg steps st = (Err e, st') -> exc_class e = PipelineError.
Proof.
  intros reg steps st e st' H. unfold build_pipeline, bind, emit, lift in H.
  destruct (check_step_names 0 steps) as [[] | e0] eqn:Hc.
  - destruct (missing_steps reg steps) as [| m ms] eqn:Hm.
    + destruct (resolve_callables_ok reg steps Hm) as [fns [Hr _]].
      rewrite Hr in H. discriminate H.
    + unfold raise in H. injection H as <- _. reflexivity.
  - injection H as <- _. eapply check_step_names_err. exact Hc.
Qed.

Lemma build_pipeline_ok : forall reg steps st p st',
  build_pipeline reg steps st = (Ok p, st') ->
  step_list p = steps /\ resolve_callables reg steps = Ok (callables p) /\
  pid p = next_id st /\ pcache st' = pcache st /\ lru st' = lru st /\
  next_id st' = S (next_id st) /\ log st' = log st ++ [EvBuild steps].
Proof.
  intros reg steps st p st' H. unfold build_pipeline, bind, emit, lift in H.
  destruct (check_step_names 0 steps) as [[] | e0]; [| discriminate H].
  destruct (missing_steps reg steps) as [| m ms] eqn:Hm; [| discriminate H].
  destruct (resolve_callables reg steps) as [fns | e] eqn:Hr; [| discriminate H].
  injection H as <- <-. simpl. repeat split; reflexivity.
Qed.

Lemma resolve_callables_length : forall reg steps fns,
  resolve_callables reg steps = Ok fns -> List.length fns = List.length steps.
Proof.
  induction steps as [| s steps IH]; intros fns H; simpl in H.
  - injection H as <-. reflexivity.
  - destruct (dict_get reg s); [| discriminate H].
    destruct (resolve_callables reg steps) as [fs |] eqn:E; simpl in H; [| discriminate H].
    injection H as <-. simpl. now rewrite (IH fs eq_refl).
Qed.

Lemma run_from_err_class : forall cf fns names i x e tr,
  i + List.length fns <= List.length names ->
  run_from cf names i fns x = (Err e, tr) ->
  exc_class e = PipelineError \/ isinstance e Exception = false.
Proof.
  intros cf. induction fns as [| f fns IH]; intros names i x e tr Hlen H; simpl in H.
  - discriminate H.
  - destruct (py_call cf f [x]) as [v | exc] eqn:Hc.
    + destruct (run_from cf names (S i) fns v) as [r tr'] eqn:Hr.
      injection H as -> _. eapply IH; [| exact Hr]. simpl in Hlen. lia.
    + destruct (isinstance exc Exception) eqn:Hex.
      * destruct (nth_error names i) as [name |] eqn:Hn.
        -- injection H as <- _. left. reflexivity.
        -- apply nth_error_None in Hn. simpl in Hlen. lia.
      * injection H as <- _. right. exact Hex.
Qed.

(** ** resolve_module_name *)

(** C8 (failing input): with [PLUGINS_MODULE] unset and a configuration
    whose [module] is the JSON number 42, [resolve_module_name] (annotated
    [-> str]) returns the int 42, and [init_pipeline] then fails with a raw
    [AttributeError] from [importlib.import_module]. *)
Theorem resolve_module_name_non_string_module :
  resolve_module_name None int_module_config = PInt 42 /\
  fst (init_pipeline fake_call int_module_world "config.json" init_state) =
    Err (Exn AttributeError (MText "object has no attribute 'startswith'") None).
Proof. split; vm_compute; reflexivity. Qed.

(** C10: with [PLUGINS_MODULE] unset or empty and a [module] entry whose
    value is falsy (empty string, 0, false, null, [] or {}),
    [resolve_module_name] returns the default "plugins". *)
Theorem resolve_module_name_falsy_module_default
    (env : option string) (d : list (PyObj * PyObj)) (v : PyObj) :
  (env = None \/ env = Some "") ->
  dict_get d (PStr "module") = Some v ->
  truthy v = false ->
  resolve_module_name env (PDict d) = PStr "plugins".
Proof.
  intros Henv Hd Hv. unfold resolve_module_name.
  destruct Henv as [-> | ->]; simpl; rewrite Hd, Hv; reflexivity.
Qed.

Lemma resolve_module_name_falsy_module_default_witness :
  ((None : option string) = None \/ (None : option string) = Some "") /\
  dict_get [(PStr "module", PStr ""); (PStr "steps", PList [PStr "strip"])] (PStr "module")
    = Some (PStr "") /\
  truthy (PStr "") = false /\
  resolve_module_name None (PDict [(PStr "module", PStr ""); (PStr "steps", PList [PStr "strip"])])
    = PStr "plugins".
Proof.
  split; [left; reflexivity |]. split; [reflexivity |]. split; [reflexivity |].
  apply (resolve_module_name_falsy_module_default None _ (PStr "")).
  - left; reflexivity.
  - reflexivity.
  - reflexivity.
Defined.

(** ** The error taxonomy *)

(** C5 (counterexample): a construction failure (a step name missing from
    the registry) and an execution failure (the callable of a built
    pipeline raising) are exceptions of the same class [PipelineError]. *)
Lemma construction_and_execution_errors_same_class :
  match fst (build_pipeline fake_registry [PStr "upper"; PStr "missing"] init_state),
        fst (build_pipeline fake_registry [PStr "upper"] init_state) with
  | Err e1, Ok p =>
      match fst (run_pipeline fake_call p (PInt 1)) with
      | Err e2 => exc_class e1 = PipelineError /\ exc_class e2 = PipelineError
      | Ok _ => False
      end
  | _, _ => False
  end.
Proof. vm_compute. split; reflexivity. Qed.

(** ** build_pipeline's report of missing steps *)

(** C6 (counterexample): the step names "" and "missing" are both absent
    from the registry, yet [build_pipeline] fails on its name check with
    "Invalid step name at index 0", which enumerates no missing name. *)
Lemma build_pipeline_empty_name_not_reported :
  dict_has fake_registry (PStr "") = false /\
  dict_has fake_registry (PStr "missing") = false /\
  fst (build_pipeline fake_registry [PStr ""; PStr "missing"] init_state) =
    Err (pipeline_error (MInvalidStepName 0 (PStr "")) None).
Proof. vm_compute. repeat split; reflexivity. Qed.

Lemma missing_steps_in : forall reg steps s,
  In s steps -> dict_has reg (PStr s) = false ->
  In (PStr s) (missing_steps reg (map PStr steps)).
Proof.
  intros reg steps s Hin Hmiss. unfold missing_steps. apply filter_In. split.
  - apply in_map, Hin.
  - rewrite Hmiss. reflexivity.
Qed.

Lemma check_step_names_bad : forall l i,
  (exists v, In v l /\ step_entry_ok v = false) ->
  exists j v, check_step_names i l = Err (pipeline_error (MInvalidStepName (i + j) v) None) /\
    nth_error l j = Some v /\ step_entry_ok v = false /\
    (forall j' u, j' < j -> nth_error l j' = Some u -> step_entry_ok u = true).
Proof.
  induction l as [| s l IH]; intros i [v [Hin Hv]]; [destruct Hin |].
  destruct (step_entry_ok s) eqn:Hs.
  - destruct s as [| | | x | | |]; try discriminate Hs.
    assert (Hex : exists v, In v l /\ step_entry_ok v = false).
    { destruct Hin as [<- | Hin]; [rewrite Hs in Hv; discriminate Hv | exists v; auto]. }
    destruct (IH (S i) Hex) as [j [u [Hval [Hn [Hu Hbefore]]]]].
    exists (S j), u. simpl. unfold step_entry_ok in Hs. rewrite Hs. rewrite Hval.
    split; [do 3 f_equal; lia |]. split; [exact Hn |]. split; [exact Hu |].
    intros [| j'] u' Hlt Hn'; simpl in Hn'.
    + injection Hn' as <-. exact Hs.
    + apply (Hbefore j'); [lia | exact Hn'].
  - exists 0, s. rewrite Nat.add_0_r. split.
    + destruct s as [| | | x | | |]; simpl; try reflexivity.
      unfold step_entry_ok in Hs. simpl. rewrite Hs. reflexivity.
    + split; [reflexivity |]. split; [exact Hs |]. intros j' u Hlt. lia.
Qed.

(** C6 (amended): for a list of non-empty string step names of which at
    least one is not a key of the registry, [build_pipeline] fails with a
    [PipelineError] whose message carries exactly the missing names, in
    step order, and the first 20 registry keys; for any step list with an
    entry that is not a non-empty string, it fails before that report with
    "Invalid step name at index i", where i is the index of the first such
    entry. *)
Theorem build_pipeline_reports_all_missing (reg : Registry) (st : State) :
  (forall steps : list string,
     Forall (fun s => s <> "") steps ->
     (exists s, In s steps /\ dict_has reg (PStr s) = false) ->
     fst (build_pipeline reg (map PStr steps) st) =
       Err (pipeline_error (MUnknownSteps (missing_steps reg (map PStr steps))
                                          (firstn 20 (map fst reg))) None) /\
     (forall s, In s steps -> dict_has reg (PStr s) = false ->
        In (PStr s) (missing_steps reg (map PStr steps))) /\
     (forall m, In m (missing_steps reg (map PStr steps)) ->
        exists s, m = PStr s /\ In s steps /\ dict_has reg (PStr s) = false)) /\
  (forall steps : list PyObj,
     (exists v, In v steps /\ step_entry_ok v = false) ->
     exists i v, fst (build_pipeline reg steps st) =
         Err (pipeline_error (MInvalidStepName i v) None) /\
       nth_error steps i = Some v /\ step_entry_ok v = false /\
       (forall j u, j < i -> nth_error steps j = Some u -> step_entry_ok u = true)).
Proof.
  split.
  - intros steps Hne [s0 [Hin0 Hmiss0]]. split; [| split].
    + unfold build_pipeline, bind, emit, lift. simpl.
      rewrite (check_step_names_strs steps 0 Hne).
      pose proof (missing_steps_in reg steps s0 Hin0 Hmiss0) as Hm.
      destruct (missing_steps reg (map PStr steps)) as [| m ms]; [destruct Hm |].
      reflexivity.
    + apply missing_steps_in.
    + intros m Hm. unfold missing_steps in Hm. apply filter_In in Hm as [Hm Hd].
      apply in_map_iff in Hm as [s [<- Hs]]. exists s. split; [reflexivity |].
      split; [exact Hs |]. destruct (dict_has reg (PStr s)); [discriminate Hd | reflexivity].
  - intros steps Hex.
    destruct (check_step_names_bad steps 0 Hex) as [j [v [Hc [Hn [Hv Hbefore]]]]].
    exists j, v. split; [| split; [exact Hn | split; [exact Hv | exact Hbefore]]].
    unfold build_pipeline, bind, emit, lift. simpl. rewrite Hc. reflexivity.
Qed.

Lemma build_pipeline_reports_all_missing_witness :
  fst (build_pipeline fake_registry (map PStr ["strip"; "lower"; "title"]) init_state) =
    Err (pipeline_error (MUnknownSteps [PStr "lower"; PStr "title"]
                                       [PStr "upper"; PStr "strip"]) None) /\
  (exists i v, fst (build_pipeline fake_registry [PStr "strip"; PInt 3; PStr ""] init_state) =
      Err (pipeline_error (MInvalidStepName i v) None) /\
    nth_error [PStr "strip"; PInt 3; PStr ""] i = Some v /\ step_entry_ok v = false /\
    (forall j u, j < i -> nth_error [PStr "strip"; PInt 3; PStr ""] j = Some u ->
       step_entry_ok u = true)) /\
  fst (build_pipeline fake_registry [PStr "strip"; PInt 3; PStr ""] init_state) =
    Err (pipeline_error (MInvalidStepName 1 (PInt 3)) None).
Proof.
  assert (Hne : Forall (fun s => s <> "") ["strip"; "lower"; "title"])
    by (repeat constructor; discriminate).
  assert (Hex : exists s, In s ["strip"; "lower"; "title"] /\
                          dict_has fake_registry (PStr s) = false)
    by (exists "lower"; split; [simpl; auto | reflexivity]).
  assert (Hbad : exists v, In v [PStr "strip"; PInt 3; PStr ""] /\ step_entry_ok v = false)
    by (exists (PInt 3); split; [simpl; auto | reflexivity]).
  destruct (build_pipeline_reports_all_missing fake_registry init_state) as [H1 H2].
  split; [| split].
  - destruct (H1 ["strip"; "lower"; "title"] Hne Hex) as [H _]. rewrite H. reflexivity.
  - exact (H2 _ Hbad).
  - vm_compute. reflexivity.
Defined.

(** ** The pipeline closure *)

Lemma run_from_step_failure : forall cf fns names i x idx v f exc name,
  compose_calls cf (firstn idx fns) x = Ok v ->
  nth_error fns idx = Some f ->
  py_call cf f [v] = Err exc ->
  nth_error names (i + idx) = Some name ->
  run_from cf names i fns x =
    ((if isinstance exc Exception
      then Err (pipeline_error (MStepError name) (Some exc)) else Err exc),
     seq i (S idx)).
Proof.
  intros cf. induction fns as [| g fns IH]; intros names i x idx v f exc name Hc Hf Hcall Hn.
  - destruct idx; discriminate Hf.
  - destruct idx as [| idx]; simpl in Hc, Hf |- *.
    + injection Hc as <-. injection Hf as <-. rewrite Hcall.
      rewrite Nat.add_0_r in Hn. rewrite Hn.
      destruct (isinstance exc Exception); reflexivity.
    + destruct (py_call cf g [x]) as [x' | e']; simpl in Hc; [| discriminate Hc].
      rewrite (IH names (S i) x' idx v f exc name Hc Hf Hcall); [reflexivity |].
      rewrite <- Hn. f_equal. lia.
Qed.

Lemma run_from_compose : forall cf fns names i x v,
  fst (run_from cf names i fns x) = Ok v <-> compose_calls cf fns x = Ok v.
Proof.
  intros cf. induction fns as [| f fns IH]; intros names i x v; simpl; [reflexivity |].
  destruct (py_call cf f [x]) as [x' | exc]; simpl.
  - destruct (run_from cf names (S i) fns x') as [r tr] eqn:Hr. simpl.
    rewrite <- (IH names (S i) x' v), Hr. reflexivity.
  - split; intro H; [| discriminate H].
    destruct (isinstance exc Exception); [destruct (nth_error names i) |]; discriminate H.
Qed.

(** C2 (counterexample): in the pipeline ["b", "b"] the failure of the
    second step (input "x") and the failure of the first step (input
    "boom") raise the same exception, so no function of the exception
    recovers the failing position. *)
Lemma pipeline_error_omits_position :
  fst (build_pipeline abc_registry [PStr "b"; PStr "b"] init_state) = Ok bb_pipeline /\
  run_pipeline abc_call bb_pipeline (PStr "x") =
    (Err (pipeline_error (MStepError (PStr "b")) (Some boom_exc)), [0; 1]) /\
  run_pipeline abc_call bb_pipeline (PStr "boom") =
    (Err (pipeline_error (MStepError (PStr "b")) (Some boom_exc)), [0]) /\
  ~ exists pos_of : exn -> nat, forall x e tr,
      run_pipeline abc_call bb_pipeline x = (Err e, tr) -> pos_of e = last tr 0.
Proof.
  assert (H1 : run_pipeline abc_call bb_pipeline (PStr "x") =
    (Err (pipeline_error (MStepError (PStr "b")) (Some boom_exc)), [0; 1]))
    by (vm_compute; reflexivity).
  assert (H0 : run_pipeline abc_call bb_pipeline (PStr "boom") =
    (Err (pipeline_error (MStepError (PStr "b")) (Some boom_exc)), [0]))
    by (vm_compute; reflexivity).
  split; [vm_compute; reflexivity |]. split; [exact H1 |]. split; [exact H0 |].
  intros [pos_of Hpos].
  pose proof (Hpos _ _ _ H1) as P1. pose proof (Hpos _ _ _ H0) as P0.
  simpl in P1, P0. rewrite P1 in P0. discriminate P0.
Qed.

(** C2 (amended): when the callable of step [idx] of a built pipeline
    raises [exc] (the earlier steps having succeeded), the pipeline fails
    with [PipelineError("Error in step '<name>': ...")] caused by [exc],
    where [name] is the original name of step [idx] (its position is not
    part of the error), provided [exc] is an [Exception]; otherwise [exc]
    propagates as is.  Either way exactly the steps [0 .. idx] were
    invoked. *)
Theorem pipeline_step_failure_wrapped (cf : nat -> list PyObj -> Res PyObj)
    (reg : Registry) (steps : list PyObj) (st : State) (p : Pipeline) (st' : State)
    (x : PyObj) (idx : nat) (v f : PyObj) (exc : exn) :
  build_pipeline reg steps st = (Ok p, st') ->
  compose_calls cf (firstn idx (callables p)) x = Ok v ->
  nth_error (callables p) idx = Some f ->
  py_call cf f [v] = Err exc ->
  exists name, nth_error steps idx = Some name /\
    run_pipeline cf p x =
      ((if isinstance exc Exception
        then Err (pipeline_error (MStepError name) (Some exc)) else Err exc),
       seq 0 (S idx)).
Proof.
  intros Hb Hc Hf Hcall.
  destruct (build_pipeline_ok _ _ _ _ _ Hb) as [Hs [Hr _]].
  apply resolve_callables_length in Hr.
  assert (Hlt : idx < List.length steps).
  { rewrite <- Hr. apply nth_error_Some. rewrite Hf. discriminate. }
  destruct (nth_error steps idx) as [name |] eqn:Hn;
    [| apply nth_error_None in Hn; lia].
  exists name. split; [reflexivity |].
  unfold run_pipeline. apply (run_from_step_failure cf _ _ 0 x idx v f); try assumption.
  rewrite Hs. exact Hn.
Qed.

Lemma pipeline_step_failure_wrapped_witness :
  build_pipeline abc_registry [PStr "a"; PStr "b"; PStr "c"] init_state =
    (Ok abc_pipeline, snd (build_pipeline abc_registry [PStr "a"; PStr "b"; PStr "c"] init_state)) /\
  compose_calls abc_call (firstn 1 (callables abc_pipeline)) (PStr "boom") = Ok (PStr "boom") /\
  nth_error (callables abc_pipeline) 1 = Some (PFunc 1) /\
  py_call abc_call (PFunc 1) [PStr "boom"] = Err boom_exc /\
  exists name, nth_error [PStr "a"; PStr "b"; PStr "c"] 1 = Some name /\
    run_pipeline abc_call abc_pipeline (PStr "boom") =
      ((if isinstance boom_exc Exception
        then Err (pipeline_error (MStepError name) (Some boom_exc)) else Err boom_exc),
       seq 0 2).
Proof.
  assert (Hb : build_pipeline abc_registry [PStr "a"; PStr "b"; PStr "c"] init_state =
    (Ok abc_pipeline, snd (build_pipeline abc_registry [PStr "a"; PStr "b"; PStr "c"] init_state)))
    by (vm_compute; reflexivity).
  split; [exact Hb |]. split; [reflexivity |]. split; [reflexivity |].
  split; [reflexivity |].
  exact (pipeline_step_failure_wrapped abc_call abc_registry _ init_state abc_pipeline _
           (PStr "boom") 1 (PStr "boom") (PFunc 1) boom_exc Hb eq_refl eq_refl eq_refl).
Defined.

(** ** init_pipeline *)

Lemma init_pipeline_key : forall cf w path st k,
  config_key w path = Ok k ->
  init_pipeline cf w path st =
    match load_plugins cf w (fst k)
            (set_log (log st ++ [EvLoadConfig; EvValidateSteps; EvResolve]) st) with
    | (Ok reg, st1) =>
        match pc_lookup k (pcache st1) with
        | Some p => (Ok p, st1)
        | None =>
            match build_pipeline reg (map PStr (snd k)) st1 with
            | (Ok p, st2) => (Ok p, set_pcache (pcache st2 ++ [(k, p)]) st2)
            | (Err e, st2) => (Err e, st2)
            end
        end
    | (Err e, st1) => (Err e, st1)
    end.
Proof.
  intros cf w path st k H. unfold config_key in H.
  destruct (load_config w path) as [cfg | e] eqn:Hl; [| discriminate H]. simpl in H.
  destruct (dict_has cfg (PStr "steps")) eqn:Hd; [| discriminate H]. simpl in H.
  destruct (match dict_get cfg (PStr "steps") with
            | Some v => validate_steps_list v
            | None => Err (Exn KeyError (MText "steps") None)
            end) as [steps | e] eqn:Hv; [| discriminate H].
  simpl in H. injection H as <-.
  unfold init_pipeline, bind, emit, lift, ret. simpl. rewrite Hl, Hd, Hv. simpl.
  rewrite <- !app_assoc. simpl.
  destruct (load_plugins cf w _ _) as [[reg | e] st1]; [| reflexivity].
  destruct (pc_lookup _ (pcache st1)); [reflexivity |].
  destruct (build_pipeline reg _ st1) as [[p | e] st2]; reflexivity.
Qed.

Lemma load_plugins_result : forall cf w mn st st',
  lru st = lru st' -> fst (load_plugins cf w mn st) = fst (load_plugins cf w mn st').
Proof.
  intros cf w mn st st' H. unfold load_plugins, bind, emit. simpl. rewrite H.
  destruct (hashable mn); simpl; [| reflexivity].
  destruct (lru_lookup mn (lru st')); [reflexivity |].
  destruct (load_plugins_body cf w mn); reflexivity.
Qed.

(** The effect of [load_plugins] on the state. *)
Lemma load_plugins_state : forall cf w mn st r st',
  load_plugins cf w mn st = (r, st') ->
  pcache st' = pcache st /\ next_id st' = next_id st /\
  log st' = log st ++ [EvLoadPlugins mn] ++
              (if hashable mn then
                 match lru_lookup mn (lru st) with Some _ => [] | None => [EvImport mn] end
               else []).
Proof.
  intros cf w mn st r st' H. unfold load_plugins, bind, emit in H. simpl in H.
  destruct (hashable mn); simpl in H.
  - destruct (lru_lookup mn (lru st)) as [reg |].
    + injection H as _ <-. simpl. rewrite ?app_nil_r. repeat split; reflexivity.
    + destruct (load_plugins_body cf w mn); injection H as _ <-; simpl;
        rewrite <- ?app_assoc; repeat split; reflexivity.
  - injection H as _ <-. simpl. rewrite ?app_nil_r. repeat split; reflexivity.
Qed.

Lemma load_plugins_ok_lru : forall cf w mn st reg st',
  load_plugins cf w mn st = (Ok reg, st') ->
  hashable mn = true /\ exists rest, lru st' = (mn, reg) :: rest.
Proof.
  intros cf w mn st reg st' H. unfold load_plugins, bind, emit in H. simpl in H.
  destruct (hashable mn); simpl in H; [| discriminate H]. split; [reflexivity |].
  destruct (lru_lookup mn (lru st)) as [r |].
  - injection H as -> <-. simpl. eexists. reflexivity.
  - destruct (load_plugins_body cf w mn) as [r | e]; [| discriminate H].
    injection H as -> <-. simpl. eexists. reflexivity.
Qed.

Lemma pc_lookup_app_new : forall k p c,
  pc_lookup k c = None -> pc_lookup k (c ++ [(k, p)]) = Some p.
Proof.
  intros k p. induction c as [| [k' q] c IH]; intros H; simpl in *.
  - now rewrite key_eqb_refl.
  - destruct (key_eqb k k'); [discriminate H | apply IH, H].
Qed.

Lemma pc_lookup_app_old : forall k k' p q c,
  pc_lookup k c = Some q -> pc_lookup k (c ++ [(k', p)]) = Some q.
Proof.
  intros k k' p q. induction c as [| [k'' q'] c IH]; intros H; simpl in *.
  - discriminate H.
  - destruct (key_eqb k k''); [exact H | apply IH, H].
Qed.

(** A call of [init_pipeline] whose key is in the pipeline cache. *)
Lemma init_pipeline_on_hit : forall cf w path st k p reg,
  config_key w path = Ok k ->
  pc_lookup k (pcache st) = Some p ->
  fst (load_plugins cf w (fst k) st) = Ok reg ->
  exists st', init_pipeline cf w path st = (Ok p, st') /\
    pcache st' = pcache st /\ next_id st' = next_id st /\
    log st' = log st ++ [EvLoadConfig; EvValidateSteps; EvResolve; EvLoadPlugins (fst k)] ++
                (match lru_lookup (fst k) (lru st) with
                 | Some _ => [] | None => [EvImport (fst k)] end).
Proof.
  intros cf w path st k p reg Hk Hpc Hl.
  rewrite (init_pipeline_key cf w path st k Hk).
  set (st0 := set_log (log st ++ [EvLoadConfig; EvValidateSteps; EvResolve]) st).
  destruct (load_plugins cf w (fst k) st0) as [r st1] eqn:E.
  assert (Hr : r = Ok reg).
  { rewrite <- Hl. change r with (fst (r, st1)). rewrite <- E.
    apply load_plugins_result. reflexivity. }
  subst r. destruct (load_plugins_ok_lru _ _ _ _ _ _ E) as [Hh _].
  destruct (load_plugins_state _ _ _ _ _ _ E) as [Hpc1 [Hid1 Hlog1]].
  simpl in Hpc1, Hid1, Hlog1. rewrite Hpc1, Hpc. exists st1.
  split; [reflexivity |]. split; [exact Hpc1 |]. split; [exact Hid1 |].
  rewrite Hlog1, Hh, <- !app_assoc. reflexivity.
Qed.

(** After a successful call, its key is in the pipeline cache and its
    module name heads the [load_plugins] cache. *)
Lemma init_pipeline_ok_caches : forall cf w path st k p st1,
  config_key w path = Ok k ->
  init_pipeline cf w path st = (Ok p, st1) ->
  pc_lookup k (pcache st1) = Some p /\ hashable (fst k) = true /\
  exists reg rest, lru st1 = (fst k, reg) :: rest.
Proof.
  intros cf w path st k p st1 Hk H.
  rewrite (init_pipeline_key cf w path st k Hk) in H.
  destruct (load_plugins cf w (fst k) _) as [[reg | e] s1] eqn:E; [| discriminate H].
  destruct (load_plugins_ok_lru _ _ _ _ _ _ E) as [Hh [rest Hlru]].
  destruct (load_plugins_state _ _ _ _ _ _ E) as [Hpc1 _].
  destruct (pc_lookup k (pcache s1)) as [q |] eqn:Hq.
  - injection H as -> <-. split; [exact Hq |]. split; [exact Hh |].
    exists reg, rest. exact Hlru.
  - destruct (build_pipeline reg (map PStr (snd k)) s1) as [[q | e] s2] eqn:Hb;
      [| discriminate H].
    injection H as -> <-.
    destruct (build_pipeline_ok _ _ _ _ _ Hb) as [_ [_ [_ [Hpc2 [Hlru2 _]]]]].
    simpl. split; [| split; [exact Hh |]].
    + apply pc_lookup_app_new. rewrite Hpc2. exact Hq.
    + exists reg, rest. rewrite Hlru2. exact Hlru.
Qed.

(** C4 (counterexample): after a call for namespace "a" and calls for 32
    other namespaces, a call for "a" hits the pipeline cache and returns the
    pipeline built first, yet it calls [load_plugins], which re-imports the
    module "a" (its entry having left the 32-entry [lru_cache]). *)
Lemma init_pipeline_hit_reimports_module :
  pc_lookup (PStr (a_name 0), ["strip"; "upper"]) (pcache eviction_history) = Some test_pipeline /\
  fst (init_pipeline fake_call (env_world (a_name 0)) "config.json" eviction_history)
    = Ok test_pipeline /\
  skipn (List.length (log eviction_history))
    (log (snd (init_pipeline fake_call (env_world (a_name 0)) "config.json" eviction_history)))
    = [EvLoadConfig; EvValidateSteps; EvResolve;
       EvLoadPlugins (PStr (a_name 0)); EvImport (PStr (a_name 0))].
Proof. vm_compute. repeat split; reflexivity. Qed.

(** C4 (amended): on a pipeline-cache hit [init_pipeline] returns the
    cached pipeline without calling [build_pipeline] (no object allocated,
    cache unchanged), but it still loads the configuration, validates the
    steps, resolves the module name and calls [load_plugins]; the module is
    re-imported exactly when its name is not in [load_plugins]' own cache. *)
Theorem init_pipeline_hit_skips_only_build
    (cf : nat -> list PyObj -> Res PyObj) (w : World) (path : string) (st : State)
    (k : Key) (p : Pipeline) (reg : Registry) :
  config_key w path = Ok k ->
  pc_lookup k (pcache st) = Some p ->
  fst (load_plugins cf w (fst k) st) = Ok reg ->
  exists st', init_pipeline cf w path st = (Ok p, st') /\
    pcache st' = pcache st /\ next_id st' = next_id st /\
    log st' = log st ++ [EvLoadConfig; EvValidateSteps; EvResolve; EvLoadPlugins (fst k)] ++
                (match lru_lookup (fst k) (lru st) with
                 | Some _ => [] | None => [EvImport (fst k)] end).
Proof. apply init_pipeline_on_hit. Qed.

Lemma init_pipeline_hit_skips_only_build_witness :
  config_key test_world "config.json" = Ok (PStr "fake_plugins", ["strip"; "upper"]) /\
  pc_lookup (PStr "fake_plugins", ["strip"; "upper"]) (pcache cached_state) = Some test_pipeline /\
  fst (load_plugins fake_call test_world (PStr "fake_plugins") cached_state) = Ok fake_registry /\
  exists st', init_pipeline fake_call test_world "config.json" cached_state = (Ok test_pipeline, st') /\
    pcache st' = pcache cached_state /\ next_id st' = next_id cached_state /\
    log st' = log cached_state ++
      [EvLoadConfig; EvValidateSteps; EvResolve; EvLoadPlugins (PStr "fake_plugins")] ++
      (match lru_lookup (PStr "fake_plugins") (lru cached_state) with
       | Some _ => [] | None => [EvImport (PStr "fake_plugins")] end).
Proof.
  assert (Hk : config_key test_world "config.json" = Ok (PStr "fake_plugins", ["strip"; "upper"]))
    by (vm_compute; reflexivity).
  assert (Hpc : pc_lookup (PStr "fake_plugins", ["strip"; "upper"]) (pcache cached_state)
                = Some test_pipeline) by (vm_compute; reflexivity).
  assert (Hl : fst (load_plugins fake_call test_world (PStr "fake_plugins") cached_state)
               = Ok fake_registry) by (vm_compute; reflexivity).
  split; [exact Hk |]. split; [exact Hpc |]. split; [exact Hl |].
  exact (init_pipeline_hit_skips_only_build fake_call test_world "config.json" cached_state
           _ test_pipeline fake_registry Hk Hpc Hl).
Defined.

(** C9: [load_plugins] runs before the pipeline-cache lookup: when it
    raises a [RegistryError], [init_pipeline] raises that same error even
    though the key is already in the pipeline cache. *)
Theorem init_pipeline_registry_error_despite_cache
    (cf : nat -> list PyObj -> Res PyObj) (w : World) (path : string) (st : State)
    (k : Key) (p : Pipeline) (e : exn) :
  config_key w path = Ok k ->
  pc_lookup k (pcache st) = Some p ->
  fst (load_plugins cf w (fst k) st) = Err e ->
  exc_class e = RegistryError ->
  fst (init_pipeline cf w path st) = Err e.
Proof.
  intros Hk _ Hl _. rewrite (init_pipeline_key cf w path st k Hk).
  set (st0 := set_log (log st ++ [EvLoadConfig; EvValidateSteps; EvResolve]) st).
  destruct (load_plugins cf w (fst k) st0) as [r st1] eqn:E.
  assert (Hr : r = Err e).
  { rewrite <- Hl. change r with (fst (r, st1)). rewrite <- E.
    apply load_plugins_result. reflexivity. }
  subst r. reflexivity.
Qed.

Lemma init_pipeline_registry_error_despite_cache_witness :
  config_key no_modules_world "config.json" = Ok (PStr "fake_plugins", ["strip"; "upper"]) /\
  pc_lookup (PStr "fake_plugins", ["strip"; "upper"]) (pcache cached_state) = Some test_pipeline /\
  fst (load_plugins fake_call no_modules_world (PStr "fake_plugins") cached_state) =
    Err (registry_error (MModuleNotFound "fake_plugins") (Some (module_not_found "fake_plugins"))) /\
  fst (init_pipeline fake_call no_modules_world "config.json" cached_state) =
    Err (registry_error (MModuleNotFound "fake_plugins") (Some (module_not_found "fake_plugins"))).
Proof.
  assert (Hk : config_key no_modules_world "config.json"
               = Ok (PStr "fake_plugins", ["strip"; "upper"])) by (vm_compute; reflexivity).
  assert (Hpc : pc_lookup (PStr "fake_plugins", ["strip"; "upper"]) (pcache cached_state)
                = Some test_pipeline) by (vm_compute; reflexivity).
  assert (Hl : fst (load_plugins fake_call no_modules_world (PStr "fake_plugins") cached_state) =
    Err (registry_error (MModuleNotFound "fake_plugins") (Some (module_not_found "fake_plugins"))))
    by (vm_compute; reflexivity).
  split; [exact Hk |]. split; [exact Hpc |]. split; [exact Hl |].
  exact (init_pipeline_registry_error_despite_cache fake_call no_modules_world "config.json"
           cached_state _ test_pipeline _ Hk Hpc Hl eq_refl).
Defined.

(** ** Validation of the [steps] field *)

Lemma validate_steps_from_bad : forall l i,
  (exists v, In v l /\ step_entry_ok v = false) ->
  exists j v, validate_steps_from i l = Err (config_error (MInvalidEntry (i + j) v)) /\
    nth_error l j = Some v /\ step_entry_ok v = false /\
    (forall j' u, j' < j -> nth_error l j' = Some u -> step_entry_ok u = true).
Proof.
  induction l as [| s l IH]; intros i [v [Hin Hv]]; [destruct Hin |].
  destruct (step_entry_ok s) eqn:Hs.
  - destruct s as [| | | x | | |]; try discriminate Hs.
    assert (Hex : exists v, In v l /\ step_entry_ok v = false).
    { destruct Hin as [<- | Hin]; [rewrite Hs in Hv; discriminate Hv | exists v; auto]. }
    destruct (IH (S i) Hex) as [j [u [Hval [Hn [Hu Hbefore]]]]].
    exists (S j), u. simpl. unfold step_entry_ok in Hs. rewrite Hs. rewrite Hval. simpl.
    split; [do 3 f_equal; lia |]. split; [exact Hn |]. split; [exact Hu |].
    intros [| j'] u' Hlt Hn'; simpl in Hn'.
    + injection Hn' as <-. exact Hs.
    + apply (Hbefore j'); [lia | exact Hn'].
  - exists 0, s. rewrite Nat.add_0_r. split.
    + destruct s as [| | | x | | |]; simpl; try reflexivity.
      unfold step_entry_ok in Hs. simpl. rewrite Hs. reflexivity.
    + split; [reflexivity |]. split; [exact Hs |]. intros j' u Hlt. lia.
Qed.

(** C7: for a configuration whose [steps] is absent, not a list, empty, or
    has an entry that is not a non-empty string, [init_pipeline] raises a
    [ConfigError] (for a bad entry, naming the first offending index and
    entry) after no component call other than the configuration load and
    the step validation: [load_plugins] is never called and the caches are
    untouched. *)
Theorem init_pipeline_malformed_steps_config_error
    (cf : nat -> list PyObj -> Res PyObj) (w : World) (path : string) (st : State)
    (cfg : list (PyObj * PyObj)) :
  load_config w path = Ok cfg ->
  steps_malformed (dict_get cfg (PStr "steps")) ->
  exists m evs st',
    init_pipeline cf w path st = (Err (config_error m), st') /\
    pcache st' = pcache st /\ lru st' = lru st /\ next_id st' = next_id st /\
    log st' = log st ++ evs /\
    (forall ev, In ev evs -> ev = EvLoadConfig \/ ev = EvValidateSteps) /\
    (forall l, dict_get cfg (PStr "steps") = Some (PList l) ->
       (exists v, In v l /\ step_entry_ok v = false) ->
       exists i v, m = MInvalidEntry i v /\ nth_error l i = Some v /\
         step_entry_ok v = false /\
         (forall j u, j < i -> nth_error l j = Some u -> step_entry_ok u = true)).
Proof.
  intros Hl Hmal. unfold init_pipeline, bind, emit, lift, ret, raise. simpl.
  rewrite Hl. unfold dict_has.
  destruct (dict_get cfg (PStr "steps")) as [sv |] eqn:Hsv; simpl.
  - destruct sv as [| | | | l | |]; simpl in Hmal |- *;
      try (eexists _, [EvLoadConfig; EvValidateSteps], _; simpl;
           split; [reflexivity |];
           repeat split; try reflexivity;
           [ rewrite <- app_assoc; reflexivity
           | intros ev [<- | [<- | []]]; auto
           | intros l' Hl'; discriminate Hl' ]).
    destruct l as [| v0 l0].
    + eexists _, [EvLoadConfig; EvValidateSteps], _. simpl.
      split; [reflexivity |]. repeat split; try reflexivity.
      * rewrite <- app_assoc. reflexivity.
      * intros ev [<- | [<- | []]]; auto.
      * intros l' Hl' [v [Hin _]]. injection Hl' as <-. destruct Hin.
    + destruct Hmal as [Hnil | Hbad]; [discriminate Hnil |].
      destruct (validate_steps_from_bad (v0 :: l0) 0 Hbad) as [j [v [Hval [Hn [Hv Hbefore]]]]].
      rewrite Hval. simpl.
      eexists _, [EvLoadConfig; EvValidateSteps], _.
      split; [reflexivity |]. repeat split; try reflexivity.
      * rewrite <- app_assoc. reflexivity.
      * intros ev [<- | [<- | []]]; auto.
      * intros l' Hl' _. injection Hl' as <-. exists j, v. auto.
  - eexists _, [EvLoadConfig], _. simpl.
    split; [reflexivity |]. repeat split; try reflexivity.
    + intros ev [<- | []]; auto.
    + intros l' Hl'; discriminate Hl'.
Qed.

Lemma init_pipeline_malformed_steps_config_error_witness :
  load_config bad_entry_world "config.json" =
    Ok [(PStr "steps", PList [PStr "strip"; PStr ""])] /\
  steps_malformed (dict_get [(PStr "steps", PList [PStr "strip"; PStr ""])] (PStr "steps")) /\
  exists m evs st',
    init_pipeline fake_call bad_entry_world "config.json" init_state = (Err (config_error m), st') /\
    pcache st' = pcache init_state /\ lru st' = lru init_state /\
    next_id st' = next_id init_state /\ log st' = log init_state ++ evs /\
    (forall ev, In ev evs -> ev = EvLoadConfig \/ ev = EvValidateSteps) /\
    (forall l, dict_get [(PStr "steps", PList [PStr "strip"; PStr ""])] (PStr "steps")
                 = Some (PList l) ->
       (exists v, In v l /\ step_entry_ok v = false) ->
       exists i v, m = MInvalidEntry i v /\ nth_error l i = Some v /\
         step_entry_ok v = false /\
         (forall j u, j < i -> nth_error l j = Some u -> step_entry_ok u = true)).
Proof.
  assert (Hl : load_config bad_entry_world "config.json" =
               Ok [(PStr "steps", PList [PStr "strip"; PStr ""])]) by (vm_compute; reflexivity).
  assert (Hm : steps_malformed (dict_get [(PStr "steps", PList [PStr "strip"; PStr ""])]
                                          (PStr "steps"))).
  { simpl. right. exists (PStr ""). split; [simpl; auto | reflexivity]. }
  split; [exact Hl |]. split; [exact Hm |].
  exact (init_pipeline_malformed_steps_config_error fake_call bad_entry_world "config.json"
           init_state _ Hl Hm).
Defined.

(** ** Consistency of the two caches *)

Lemma in_firstn : forall {A} n (l : list A) x, In x (firstn n l) -> In x l.
Proof.
  intros A n l x H. rewrite <- (firstn_skipn n l). apply in_or_app. left. exact H.
Qed.

Lemma pc_lookup_in : forall k c p, pc_lookup k c = Some p -> In (k, p) c.
Proof.
  intros k. induction c as [| [k' q] c IH]; intros p H; simpl in H; [discriminate H |].
  destruct (key_eqb k k') eqn:E.
  - apply key_eqb_true in E. subst. injection H as <-. left. reflexivity.
  - right. apply IH, H.
Qed.

Lemma lru_lookup_in : forall mn l r, lru_lookup mn l = Some r -> In (mn, r) l.
Proof.
  intros mn. induction l as [| [mn' r'] l IH]; intros r H; simpl in H; [discriminate H |].
  destruct (py_eqb mn mn') eqn:E.
  - apply py_eqb_true in E. subst. injection H as <-. left. reflexivity.
  - right. apply IH, H.
Qed.

Lemma load_plugins_body_modules : forall cf w w' mn,
  modules w = modules w' -> load_plugins_body cf w mn = load_plugins_body cf w' mn.
Proof. intros cf w w' mn H. unfold load_plugins_body. now rewrite H. Qed.

Lemma build_pipeline_caches : forall reg steps st r st',
  build_pipeline reg steps st = (r, st') -> pcache st' = pcache st /\ lru st' = lru st.
Proof.
  intros reg steps st r st' H. unfold build_pipeline, bind, emit, lift, raise in H.
  destruct (check_step_names 0 steps) as [[] | e]; [| injection H as _ <-; split; reflexivity].
  destruct (missing_steps reg steps) as [| m ms]; [| injection H as _ <-; split; reflexivity].
  destruct (resolve_callables reg steps); injection H as _ <-; split; reflexivity.
Qed.

Lemma load_plugins_consistent : forall cf mods w mn st r st',
  caches_consistent cf mods st -> modules w = mods ->
  load_plugins cf w mn st = (r, st') ->
  caches_consistent cf mods st' /\
  (forall reg, r = Ok reg -> forall w', modules w' = mods -> load_plugins_body cf w' mn = Ok reg).
Proof.
  intros cf mods w mn st r st' [Hl Hp] Hw H.
  unfold load_plugins, bind, emit in H.
  remember lru_maxsize as n eqn:Hn in H. simpl in H.
  destruct (hashable mn); simpl in H; [| injection H as <- <-; split; [split; assumption |]; discriminate].
  destruct (lru_lookup mn (lru st)) as [reg0 |] eqn:Hlk.
  - injection H as <- <-. apply lru_lookup_in in Hlk.
    split; [split |].
    + simpl. intros mn' r' [Heq | Hin]; [injection Heq as <- <-; apply Hl, Hlk |].
      unfold lru_remove in Hin. apply filter_In in Hin as [Hin _]. apply Hl, Hin.
    + exact Hp.
    + intros reg Hr. injection Hr as <-. apply Hl, Hlk.
  - destruct (load_plugins_body cf w mn) as [reg0 | e] eqn:Hb; injection H as <- <-.
    + assert (Hb' : forall w', modules w' = mods -> load_plugins_body cf w' mn = Ok reg0).
      { intros w' Hw'. rewrite <- Hb. apply load_plugins_body_modules. congruence. }
      split; [split |].
      * intros mn' r' Hin. apply in_firstn in Hin.
        destruct Hin as [Heq | Hin]; [injection Heq as <- <-; exact Hb' | apply Hl, Hin].
      * exact Hp.
      * intros reg Hr. injection Hr as <-. exact Hb'.
    + split; [split; assumption |]. discriminate.
Qed.

Lemma config_key_err_state : forall cf w path st e,
  config_key w path = Err e ->
  exists l, init_pipeline cf w path st = (Err e, set_log l st).
Proof.
  intros cf w path st e H. unfold config_key in H.
  unfold init_pipeline, bind, emit, lift, ret, raise. simpl.
  destruct (load_config w path) as [cfg | e0]; simpl in H |- *;
    [| injection H as <-; eexists; reflexivity].
  destruct (dict_has cfg (PStr "steps")); simpl in H |- *;
    [| injection H as <-; eexists; reflexivity].
  destruct (match dict_get cfg (PStr "steps") with
            | Some v => validate_steps_list v
            | None => Err (Exn KeyError (MText "steps") None)
            end); simpl in H |- *; [discriminate H | injection H as <-; eexists; reflexivity].
Qed.

Lemma caches_consistent_ext : forall cf mods st st',
  lru st' = lru st -> pcache st' = pcache st ->
  caches_consistent cf mods st -> caches_consistent cf mods st'.
Proof. intros cf mods st st' Hl Hp [H1 H2]. split; [rewrite Hl | rewrite Hp]; assumption. Qed.

Lemma load_plugins_err : forall cf w mn st e st',
  load_plugins cf w mn st = (Err e, st') ->
  hashable mn = false \/ load_plugins_body cf w mn = Err e.
Proof.
  intros cf w mn st e st' H. unfold load_plugins, bind, emit in H.
  remember lru_maxsize as n eqn:Hn in H. simpl in H.
  destruct (hashable mn); [right | left; reflexivity]. simpl in H.
  destruct (lru_lookup mn (lru st)); [discriminate H |].
  destruct (load_plugins_body cf w mn); [discriminate H | injection H as -> _; reflexivity].
Qed.

Lemma load_plugins_body_ok_str : forall cf w mn reg,
  load_plugins_body cf w mn = Ok reg -> exists m, mn = PStr m.
Proof. intros cf w [] reg H; try discriminate H. eexists. reflexivity. Qed.

Lemma init_pipeline_consistent : forall cf mods w path st,
  caches_consistent cf mods st -> modules w = mods ->
  caches_consistent cf mods (snd (init_pipeline cf w path st)).
Proof.
  intros cf mods w path st Hc Hw. destruct (config_key w path) as [k | e] eqn:Hk.
  - rewrite (init_pipeline_key cf w path st k Hk).
    set (st0 := set_log (log st ++ [EvLoadConfig; EvValidateSteps; EvResolve]) st).
    assert (Hc0 : caches_consistent cf mods st0) by exact Hc.
    destruct (load_plugins cf w (fst k) st0) as [r st1] eqn:E.
    destruct (load_plugins_consistent cf mods w (fst k) st0 r st1 Hc0 Hw E) as [Hc1 Hreg].
    destruct r as [reg | e]; [| exact Hc1].
    destruct (pc_lookup k (pcache st1)); [exact Hc1 |].
    destruct (build_pipeline reg (map PStr (snd k)) st1) as [[p | e] st2] eqn:Hb.
    + destruct (build_pipeline_ok _ _ _ _ _ Hb) as [Hs [Hres [_ [Hpc2 [Hlru2 _]]]]].
      destruct Hc1 as [Hl1 Hp1]. split.
      * simpl. rewrite Hlru2. exact Hl1.
      * simpl. intros k' p' Hin. apply in_app_or in Hin as [Hin | [Heq | []]].
        -- apply Hp1. rewrite <- Hpc2. exact Hin.
        -- injection Heq as <- <-. exists reg.
           split; [apply Hreg; reflexivity |]. split; [exact Hs | exact Hres].
    + destruct (build_pipeline_caches _ _ _ _ _ Hb) as [Hpc2 Hlru2].
      exact (caches_consistent_ext _ _ _ _ Hlru2 Hpc2 Hc1).
  - destruct (config_key_err_state cf w path st e Hk) as [l ->]. exact Hc.
Qed.

Lemma reachable_consistent : forall cf mods st,
  reachable cf mods st -> caches_consistent cf mods st.
Proof.
  intros cf mods st Hr. induction Hr as [| w path st Hr IH Hw | w mn st Hr IH Hw | reg steps st Hr IH].
  - split; intros ? ? [].
  - apply init_pipeline_consistent; assumption.
  - destruct (load_plugins cf w mn st) as [r st'] eqn:E.
    exact (proj1 (load_plugins_consistent cf mods w mn st r st' IH Hw E)).
  - destruct (build_pipeline reg steps st) as [r st'] eqn:E.
    destruct (build_pipeline_caches _ _ _ _ _ E) as [Hp Hl].
    exact (caches_consistent_ext _ _ _ _ Hl Hp IH).
Qed.

Lemma validate_steps_from_ok : forall l i xs,
  validate_steps_from i l = Ok xs -> Forall (fun s => s <> "") xs.
Proof.
  induction l as [| s l IH]; intros i xs H; simpl in H.
  - injection H as <-. constructor.
  - destruct s as [| | | x | | |]; try discriminate H.
    destruct (truthy (PStr x)) eqn:Ht; [| discriminate H].
    destruct (validate_steps_from (S i) l) as [ys |] eqn:E; simpl in H; [| discriminate H].
    injection H as <-. constructor; [| eapply IH; exact E].
    intros ->. discriminate Ht.
Qed.

Lemma config_key_steps_ok : forall w path k,
  config_key w path = Ok k -> Forall (fun s => s <> "") (snd k).
Proof.
  intros w path k H. unfold config_key in H.
  destruct (load_config w path) as [cfg |]; [| discriminate H]. simpl in H.
  destruct (dict_has cfg (PStr "steps")); [| discriminate H]. simpl in H.
  destruct (dict_get cfg (PStr "steps")) as [v |]; [| discriminate H].
  destruct (validate_steps_list v) as [steps |] eqn:E; [| discriminate H].
  simpl in H. injection H as <-. simpl.
  destruct v as [| | | | l | |]; try discriminate E.
  destruct l; [discriminate E |]. eapply validate_steps_from_ok. exact E.
Qed.

Lemma missing_steps_nil : forall reg steps,
  Forall (fun s => dict_has reg (PStr s) = true) steps ->
  missing_steps reg (map PStr steps) = [].
Proof.
  intros reg steps H. induction H as [| s steps Hs H IH]; [reflexivity |].
  unfold missing_steps in *. simpl. rewrite Hs. exact IH.
Qed.

Lemma build_pipeline_succeeds : forall reg steps st,
  Forall (fun s => s <> "") steps ->
  Forall (fun s => dict_has reg (PStr s) = true) steps ->
  exists p st', build_pipeline reg (map PStr steps) st = (Ok p, st').
Proof.
  intros reg steps st Hne Hin. unfold build_pipeline, bind, emit, lift. simpl.
  rewrite (check_step_names_strs steps 0 Hne), (missing_steps_nil reg steps Hin).
  destruct (resolve_callables_ok reg (map PStr steps) (missing_steps_nil reg steps Hin))
    as [fns [-> _]].
  eexists. eexists. reflexivity.
Qed.

Lemma resolve_callables_forall2 : forall reg steps fns,
  resolve_callables reg (map PStr steps) = Ok fns ->
  Forall2 (fun s f => dict_get reg (PStr s) = Some f) steps fns.
Proof.
  intros reg. induction steps as [| s steps IH]; intros fns H; simpl in H.
  - injection H as <-. constructor.
  - destruct (dict_get reg (PStr s)) as [f |] eqn:Hf; [| discriminate H].
    destruct (resolve_callables reg (map PStr steps)) as [fs |] eqn:E; simpl in H;
      [| discriminate H].
    injection H as <-. constructor; [exact Hf | apply IH; reflexivity].
Qed.

(** ** End-to-end composition *)

(** C1: in any state reached by a process whose importable modules are
    [mods], a call of [init_pipeline] with a valid configuration (key [k])
    whose module's registry [reg] has every step name as a key succeeds; the
    returned pipeline keeps the original step names, binds in order the
    registry entries [reg[s]] of the N steps, and applied to any [x] gives
    [v] exactly when the left-to-right composition of these callables
    applied to [x] gives [v]. *)
Theorem init_pipeline_composition
    (cf : nat -> list PyObj -> Res PyObj) (mods : string -> Res (list (string * PyObj)))
    (w : World) (path : string) (st : State) (k : Key) (reg : Registry) :
  reachable cf mods st ->
  modules w = mods ->
  config_key w path = Ok k ->
  load_plugins_body cf w (fst k) = Ok reg ->
  Forall (fun s => dict_has reg (PStr s) = true) (snd k) ->
  exists p st', init_pipeline cf w path st = (Ok p, st') /\
    step_list p = map PStr (snd k) /\
    Forall2 (fun s f => dict_get reg (PStr s) = Some f) (snd k) (callables p) /\
    (forall x v, fst (run_pipeline cf p x) = Ok v <-> compose_calls cf (callables p) x = Ok v).
Proof.
  intros Hr Hw Hk Hbody Hall.
  pose proof (reachable_consistent cf mods st Hr) as Hc.
  assert (Hbind : forall p, step_list p = map PStr (snd k) ->
            resolve_callables reg (map PStr (snd k)) = Ok (callables p) ->
            step_list p = map PStr (snd k) /\
            Forall2 (fun s f => dict_get reg (PStr s) = Some f) (snd k) (callables p) /\
            (forall x v, fst (run_pipeline cf p x) = Ok v <->
                         compose_calls cf (callables p) x = Ok v)).
  { intros p Hs Hres. split; [exact Hs |]. split.
    - apply resolve_callables_forall2, Hres.
    - intros x v. apply run_from_compose. }
  rewrite (init_pipeline_key cf w path st k Hk).
  set (st0 := set_log (log st ++ [EvLoadConfig; EvValidateSteps; EvResolve]) st).
  assert (Hc0 : caches_consistent cf mods st0) by exact Hc.
  destruct (load_plugins cf w (fst k) st0) as [r st1] eqn:E.
  destruct (load_plugins_consistent cf mods w (fst k) st0 r st1 Hc0 Hw E) as [Hc1 Hreg].
  destruct r as [reg' | e].
  - assert (reg' = reg) as ->.
    { pose proof (Hreg reg' eq_refl w Hw) as H'. rewrite Hbody in H'.
      injection H' as ->. reflexivity. }
    destruct (pc_lookup k (pcache st1)) as [p |] eqn:Hpc.
    + apply pc_lookup_in in Hpc. destruct Hc1 as [_ Hp1].
      destruct (Hp1 k p Hpc) as [reg0 [Hb0 [Hs Hres]]].
      rewrite (Hb0 w Hw) in Hbody. injection Hbody as ->.
      exists p, st1. split; [reflexivity |]. apply Hbind; assumption.
    + destruct (build_pipeline_succeeds reg (snd k) st1 (config_key_steps_ok w path k Hk) Hall)
        as [p [st2 Hb]].
      rewrite Hb. exists p, (set_pcache (pcache st2 ++ [(k, p)]) st2).
      split; [reflexivity |].
      destruct (build_pipeline_ok _ _ _ _ _ Hb) as [Hs [Hres _]].
      apply Hbind; assumption.
  - exfalso. destruct (load_plugins_err _ _ _ _ _ _ E) as [Hh | Hb'].
    + destruct (load_plugins_body_ok_str _ _ _ _ Hbody) as [m Hm].
      rewrite Hm in Hh. discriminate Hh.
    + rewrite Hbody in Hb'. discriminate Hb'.
Qed.

Lemma init_pipeline_composition_witness :
  reachable fake_call fake_modules init_state /\
  modules test_world = fake_modules /\
  config_key test_world "config.json" = Ok (PStr "fake_plugins", ["strip"; "upper"]) /\
  load_plugins_body fake_call test_world (PStr "fake_plugins") = Ok fake_registry /\
  Forall (fun s => dict_has fake_registry (PStr s) = true) ["strip"; "upper"] /\
  (exists p st', init_pipeline fake_call test_world "config.json" init_state = (Ok p, st') /\
    step_list p = map PStr ["strip"; "upper"] /\
    Forall2 (fun s f => dict_get fake_registry (PStr s) = Some f) ["strip"; "upper"] (callables p) /\
    (forall x v, fst (run_pipeline fake_call p x) = Ok v <->
                 compose_calls fake_call (callables p) x = Ok v)) /\
  compose_calls fake_call [PFunc 1; PFunc 0] (PStr "  hello world  ") = Ok (PStr "HELLO WORLD").
Proof.
  assert (Hr : reachable fake_call fake_modules init_state) by constructor.
  assert (Hk : config_key test_world "config.json" = Ok (PStr "fake_plugins", ["strip"; "upper"]))
    by (vm_compute; reflexivity).
  assert (Hb : load_plugins_body fake_call test_world (PStr "fake_plugins") = Ok fake_registry)
    by (vm_compute; reflexivity).
  assert (Hall : Forall (fun s => dict_has fake_registry (PStr s) = true) ["strip"; "upper"])
    by (repeat constructor).
  split; [exact Hr |]. split; [reflexivity |]. split; [exact Hk |]. split; [exact Hb |].
  split; [exact Hall |]. split.
  - exact (init_pipeline_composition fake_call fake_modules test_world "config.json" init_state
             _ fake_registry Hr eq_refl Hk Hb Hall).
  - vm_compute. reflexivity.
Defined.

(** ** Persistence of cached pipelines *)

Lemma init_pipeline_keeps_cached : forall cf w path st k p,
  pc_lookup k (pcache st) = Some p ->
  pc_lookup k (pcache (snd (init_pipeline cf w path st))) = Some p.
Proof.
  intros cf w path st k p H. destruct (config_key w path) as [k' | e] eqn:Hk.
  - rewrite (init_pipeline_key cf w path st k' Hk).
    set (st0 := set_log (log st ++ [EvLoadConfig; EvValidateSteps; EvResolve]) st).
    destruct (load_plugins cf w (fst k') st0) as [r st1] eqn:E.
    destruct (load_plugins_state _ _ _ _ _ _ E) as [Hpc1 _].
    assert (H1 : pc_lookup k (pcache st1) = Some p) by (rewrite Hpc1; exact H).
    destruct r as [reg | e]; [| exact H1].
    destruct (pc_lookup k' (pcache st1)); [exact H1 |].
    destruct (build_pipeline reg (map PStr (snd k')) st1) as [[q | e] st2] eqn:Hb;
      destruct (build_pipeline_caches _ _ _ _ _ Hb) as [Hpc2 _]; simpl.
    + apply pc_lookup_app_old. rewrite Hpc2. exact H1.
    + rewrite Hpc2. exact H1.
  - destruct (config_key_err_state cf w path st e Hk) as [l ->]. exact H.
Qed.

Lemma later_state_keeps_cached : forall cf mods st st' k p,
  later_state cf mods st st' ->
  pc_lookup k (pcache st) = Some p -> pc_lookup k (pcache st') = Some p.
Proof.
  intros cf mods st st' k p Hl. induction Hl as [st | w path st st' Hw Hl IH
    | w mn st st' Hw Hl IH | reg steps st st' Hl IH]; intros H.
  - exact H.
  - apply IH, init_pipeline_keeps_cached, H.
  - apply IH. destruct (load_plugins cf w mn st) as [r s1] eqn:E.
    destruct (load_plugins_state _ _ _ _ _ _ E) as [Hpc _]. simpl. rewrite Hpc. exact H.
  - apply IH. destruct (build_pipeline reg steps st) as [r s1] eqn:E.
    destruct (build_pipeline_caches _ _ _ _ _ E) as [Hpc _]. simpl. rewrite Hpc. exact H.
Qed.

Lemma later_state_reachable : forall cf mods st st',
  later_state cf mods st st' -> reachable cf mods st -> reachable cf mods st'.
Proof.
  intros cf mods st st' Hl. induction Hl as [st | w path st st' Hw Hl IH
    | w mn st st' Hw Hl IH | reg steps st st' Hl IH]; intros H.
  - exact H.
  - apply IH. apply reachable_init_pipeline; assumption.
  - apply IH. apply reachable_load_plugins; assumption.
  - apply IH. apply reachable_build_pipeline; assumption.
Qed.

(** A successful call leaves the registry it used recorded as the body's
    result for its module. *)
Lemma init_pipeline_ok_registry : forall cf mods w path st k p st1,
  caches_consistent cf mods st -> modules w = mods ->
  config_key w path = Ok k ->
  init_pipeline cf w path st = (Ok p, st1) ->
  exists reg, forall w', modules w' = mods -> load_plugins_body cf w' (fst k) = Ok reg.
Proof.
  intros cf mods w path st k p st1 Hc Hw Hk H.
  rewrite (init_pipeline_key cf w path st k Hk) in H.
  set (st0 := set_log (log st ++ [EvLoadConfig; EvValidateSteps; EvResolve]) st) in H.
  assert (Hc0 : caches_consistent cf mods st0) by exact Hc.
  destruct (load_plugins cf w (fst k) st0) as [r s1] eqn:E.
  destruct (load_plugins_consistent cf mods w (fst k) st0 r s1 Hc0 Hw E) as [_ Hreg].
  destruct r as [reg | e]; [| discriminate H].
  exists reg. apply Hreg. reflexivity.
Qed.

(** C3: when a call of [init_pipeline] has returned [p], a later call whose
    configuration resolves to the same key returns the identical object [p]
    and builds and allocates nothing. (1) For the immediately following
    call, in any world: its only component calls are the configuration
    load, the step validation, the name resolution and the [load_plugins]
    call, served from its cache. (2) After any further calls of the
    module's public functions in between, the importable modules staying
    the same (the state being one such a process reaches). *)
Theorem init_pipeline_second_call_same_object
    (cf : nat -> list PyObj -> Res PyObj) (w1 w2 : World) (path1 path2 : string)
    (st : State) (p : Pipeline) (st1 : State) (k : Key) :
  init_pipeline cf w1 path1 st = (Ok p, st1) ->
  config_key w1 path1 = Ok k ->
  config_key w2 path2 = Ok k ->
  (exists st2, init_pipeline cf w2 path2 st1 = (Ok p, st2) /\
     pcache st2 = pcache st1 /\ next_id st2 = next_id st1 /\
     log st2 = log st1 ++ [EvLoadConfig; EvValidateSteps; EvResolve; EvLoadPlugins (fst k)]) /\
  (forall mods st2,
     reachable cf mods st -> modules w1 = mods -> modules w2 = mods ->
     later_state cf mods st1 st2 ->
     exists st3, init_pipeline cf w2 path2 st2 = (Ok p, st3) /\
       pcache st3 = pcache st2 /\ next_id st3 = next_id st2).
Proof.
  intros H1 Hk1 Hk2.
  destruct (init_pipeline_ok_caches _ _ _ _ _ _ _ Hk1 H1) as [Hpc [Hh [reg [rest Hlru]]]].
  split.
  - assert (Hlk : lru_lookup (fst k) (lru st1) = Some reg)
      by (rewrite Hlru; simpl; now rewrite py_eqb_refl).
    assert (Hl : fst (load_plugins cf w2 (fst k) st1) = Ok reg)
      by (unfold load_plugins, bind, emit; simpl; now rewrite Hh, Hlk).
    destruct (init_pipeline_on_hit cf w2 path2 st1 k p reg Hk2 Hpc Hl)
      as [st2 [H2 [Hpc2 [Hid2 Hlog2]]]].
    exists st2. split; [exact H2 |]. split; [exact Hpc2 |]. split; [exact Hid2 |].
    rewrite Hlog2, Hlk, app_nil_r. reflexivity.
  - intros mods st2 Hr Hw1 Hw2 Hlater.
    destruct (init_pipeline_ok_registry cf mods w1 path1 st k p st1
                (reachable_consistent _ _ _ Hr) Hw1 Hk1 H1) as [reg1 Hb].
    assert (Hpc2 : pc_lookup k (pcache st2) = Some p)
      by exact (later_state_keeps_cached _ _ _ _ _ _ Hlater Hpc).
    assert (Hl : exists reg2, fst (load_plugins cf w2 (fst k) st2) = Ok reg2).
    { unfold load_plugins, bind, emit. simpl. rewrite Hh.
      destruct (lru_lookup (fst k) (lru st2)) as [reg2 |].
      - exists reg2. reflexivity.
      - rewrite (Hb w2 Hw2). exists reg1. reflexivity. }
    destruct Hl as [reg2 Hl].
    destruct (init_pipeline_on_hit cf w2 path2 st2 k p reg2 Hk2 Hpc2 Hl)
      as [st3 [H3 [Hpc3 [Hid3 _]]]].
    exists st3. split; [exact H3 |]. split; assumption.
Qed.

Lemma init_pipeline_second_call_same_object_witness :
  init_pipeline fake_call test_world "config.json" init_state =
    (Ok test_pipeline, snd (init_pipeline fake_call test_world "config.json" init_state)) /\
  config_key test_world "config.json" = Ok (PStr "fake_plugins", ["strip"; "upper"]) /\
  config_key (env_world "fake_plugins") "config.json" = Ok (PStr "fake_plugins", ["strip"; "upper"]) /\
  (exists st2,
    init_pipeline fake_call (env_world "fake_plugins") "config.json"
      (snd (init_pipeline fake_call test_world "config.json" init_state)) =
      (Ok test_pipeline, st2) /\
    pcache st2 = pcache (snd (init_pipeline fake_call test_world "config.json" init_state)) /\
    next_id st2 = next_id (snd (init_pipeline fake_call test_world "config.json" init_state)) /\
    log st2 = log (snd (init_pipeline fake_call test_world "config.json" init_state)) ++
              [EvLoadConfig; EvValidateSteps; EvResolve; EvLoadPlugins (PStr "fake_plugins")]) /\
  (exists st3,
    init_pipeline fake_call test_world "config.json"
      (snd (load_plugins fake_call test_world (PStr "other")
         (snd (init_pipeline fake_call test_world "config.json" init_state)))) =
      (Ok test_pipeline, st3)).
Proof.
  assert (H1 : init_pipeline fake_call test_world "config.json" init_state =
    (Ok test_pipeline, snd (init_pipeline fake_call test_world "config.json" init_state)))
    by (vm_compute; reflexivity).
  assert (Hk1 : config_key test_world "config.json" = Ok (PStr "fake_plugins", ["strip"; "upper"]))
    by (vm_compute; reflexivity).
  assert (Hk2 : config_key (env_world "fake_plugins") "config.json"
                = Ok (PStr "fake_plugins", ["strip"; "upper"]))
    by (vm_compute; reflexivity).
  split; [exact H1 |]. split; [exact Hk1 |]. split; [exact Hk2 |].
  split.
  - exact (proj1 (init_pipeline_second_call_same_object fake_call test_world
             (env_world "fake_plugins") "config.json" "config.json" init_state
             test_pipeline _ _ H1 Hk1 Hk2)).
  - destruct (proj2 (init_pipeline_second_call_same_object fake_call test_world test_world
               "config.json" "config.json" init_state test_pipeline _ _ H1 Hk1 Hk1)
               fake_modules
               (snd (load_plugins fake_call test_world (PStr "other")
                  (snd (init_pipeline fake_call test_world "config.json" init_state))))
               (reachable_init _ _) eq_refl eq_refl
               (later_load_plugins _ _ test_world (PStr "other") _ _ eq_refl
                  (later_refl _ _ _)))
      as [st3 [H3 _]].
    exists st3. exact H3.
Defined.

(** ** _validate_registry and _validate_steps_list *)

Lemma validate_registry_items_ok : forall d,
  validate_registry_items d = Ok tt <-> Forall (fun kv => registry_entry_ok kv = true) d.
Proof.
  induction d as [| [k f] d IH]; simpl.
  - split; intros _; [constructor | reflexivity].
  - destruct k as [| | | n | | |];
      try (split; [discriminate | intros H; inversion H as [| ? ? Hx]; discriminate Hx]).
    destruct (callable f) eqn:Hc.
    + split; intros H.
      * constructor; [exact Hc | apply IH, H].
      * inversion H as [| ? ? _ Hrest]; subst. apply IH, Hrest.
    + split; [discriminate | intros H; inversion H as [| ? ? Hx]].
      change (callable f = true) in Hx. congruence.
Qed.

Lemma validate_registry_items_err : forall d e,
  validate_registry_items d = Err e -> exc_class e = RegistryError /\ exc_cause e = None.
Proof.
  induction d as [| [k f] d IH]; intros e H; simpl in H; [discriminate H |].
  destruct k as [| | | n | | |]; try (injection H as <-; split; reflexivity).
  destruct (callable f); [apply IH, H | injection H as <-; split; reflexivity].
Qed.

Lemma validate_registry_err : forall r e,
  validate_registry r = Err e -> exc_class e = RegistryError /\ exc_cause e = None.
Proof.
  intros [| | | | | d |] e H; simpl in H; try (injection H as <-; split; reflexivity).
  destruct (validate_registry_items d) as [[] | e0] eqn:Hv; simpl in H; [discriminate H |].
  injection H as <-. exact (validate_registry_items_err d e0 Hv).
Qed.

Lemma validate_registry_ok_items : forall r d,
  validate_registry r = Ok d -> r = PDict d /\ Forall (fun kv => registry_entry_ok kv = true) d.
Proof.
  intros [| | | | | d0 |] d H; simpl in H; try discriminate H.
  destruct (validate_registry_items d0) as [[] | e0] eqn:Hv; simpl in H; [| discriminate H].
  injection H as <-. split; [reflexivity | apply validate_registry_items_ok, Hv].
Qed.

Lemma validate_steps_from_iff : forall l i xs,
  validate_steps_from i l = Ok xs <-> l = map PStr xs /\ Forall (fun s => s <> "") xs.
Proof.
  induction l as [| s l IH]; intros i xs; simpl.
  - split.
    + intros H. injection H as <-. split; [reflexivity | constructor].
    + intros [H _]. destruct xs; [reflexivity | discriminate H].
  - destruct s as [| | | x | | |];
      try (split; [discriminate | intros [H _]; destruct xs; discriminate H]).
    destruct x as [| c x']; simpl.
    + split; [discriminate |]. intros [H Hf].
      destruct xs as [| y ys]; [discriminate H |]. injection H as Hy _. subst y.
      inversion Hf as [| ? ? Hne _]. contradiction.
    + destruct (validate_steps_from (S i) l) as [ys | e] eqn:Hv; simpl.
      * destruct (proj1 (IH (S i) ys) Hv) as [Hl Hf]. split.
        -- intros H. injection H as <-. split; [rewrite Hl; reflexivity |].
           constructor; [discriminate | exact Hf].
        -- intros [H Hf']. destruct xs as [| y xs']; [discriminate H |].
           injection H as Hy Hl'. subst y. inversion Hf' as [| ? ? _ Hrest].
           assert (Hv' : validate_steps_from (S i) l = Ok xs') by (apply IH; split; assumption).
           rewrite Hv in Hv'. injection Hv' as ->. reflexivity.
      * split; [discriminate |]. intros [H Hf'].
        destruct xs as [| y xs']; [discriminate H |].
        injection H as Hy Hl'. subst y. inversion Hf' as [| ? ? _ Hrest].
        assert (Hv' : validate_steps_from (S i) l = Ok xs') by (apply IH; split; assumption).
        rewrite Hv in Hv'. discriminate Hv'.
Qed.

(** ** build_pipeline *)

Lemma check_step_names_iff : forall steps i,
  check_step_names i steps = Ok tt <-> Forall (fun s => step_entry_ok s = true) steps.
Proof.
  induction steps as [| s steps IH]; intros i; simpl.
  - split; intros _; [constructor | reflexivity].
  - destruct s as [| | | x | | |];
      try (split; [discriminate | intros H; inversion H as [| ? ? Hx]; discriminate Hx]).
    destruct x as [| c x']; simpl.
    + split; [discriminate | intros H; inversion H as [| ? ? Hx]; discriminate Hx].
    + split; intros H.
      * constructor; [reflexivity | apply (IH (S i)), H].
      * inversion H as [| ? ? _ Hrest]; subst. apply IH, Hrest.
Qed.

Lemma missing_steps_nil_iff : forall reg steps,
  missing_steps reg steps = [] <-> Forall (fun s => dict_has reg s = true) steps.
Proof.
  intros reg. unfold missing_steps. induction steps as [| s steps IH]; simpl.
  - split; intros _; [constructor | reflexivity].
  - destruct (dict_has reg s) eqn:E; simpl.
    + split; intros H.
      * constructor; [exact E | apply IH, H].
      * inversion H as [| ? ? _ Hrest]; subst. apply IH, Hrest.
    + split; [discriminate | intros H; inversion H as [| ? ? Hx]; congruence].
Qed.

Lemma build_pipeline_ok_iff : forall reg steps st,
  (exists p st', build_pipeline reg steps st = (Ok p, st')) <->
  Forall (fun s => step_entry_ok s = true) steps /\
  Forall (fun s => dict_has reg s = true) steps.
Proof.
  intros reg steps st. unfold build_pipeline, bind, emit, lift, raise.
  destruct (check_step_names 0 steps) as [[] | e] eqn:Hc.
  - destruct (missing_steps reg steps) as [| m ms] eqn:Hm.
    + destruct (resolve_callables_ok reg steps Hm) as [fns [Hr _]]. rewrite Hr.
      split.
      * intros _. split; [apply (check_step_names_iff steps 0), Hc | apply missing_steps_nil_iff, Hm].
      * intros _. eexists. eexists. reflexivity.
    + split; [intros [p [st' H]]; discriminate H |].
      intros [_ H]. apply missing_steps_nil_iff in H. congruence.
  - split; [intros [p [st' H]]; discriminate H |].
    intros [H _]. apply (check_step_names_iff steps 0) in H. congruence.
Qed.

Lemma build_pipeline_err_state : forall reg steps st e st',
  build_pipeline reg steps st = (Err e, st') ->
  pcache st' = pcache st /\ lru st' = lru st /\ next_id st' = next_id st.
Proof.
  intros reg steps st e st' H. unfold build_pipeline, bind, emit, lift, raise in H.
  destruct (check_step_names 0 steps) as [[] | e0]; [| injection H as _ <-; repeat split].
  destruct (missing_steps reg steps) as [| m ms]; [| injection H as _ <-; repeat split].
  destruct (resolve_callables reg steps); [discriminate H | injection H as _ <-; repeat split].
Qed.

Lemma build_pipeline_next_id : forall reg steps st r st',
  build_pipeline reg steps st = (r, st') ->
  pcache st' = pcache st /\ (next_id st' = next_id st \/ next_id st' = S (next_id st)).
Proof.
  intros reg steps st [p | e] st' H.
  - destruct (build_pipeline_ok _ _ _ _ _ H) as [_ [_ [_ [Hpc [_ [Hid _]]]]]].
    split; [exact Hpc | right; exact Hid].
  - destruct (build_pipeline_err_state _ _ _ _ _ H) as [Hpc [_ Hid]].
    split; [exact Hpc | left; exact Hid].
Qed.

Lemma resolve_callables_app : forall reg a b,
  resolve_callables reg (a ++ b) =
    res_bind (resolve_callables reg a) (fun f1 =>
    res_bind (resolve_callables reg b) (fun f2 => Ok (f1 ++ f2))).
Proof.
  intros reg a b. induction a as [| s a IH]; simpl.
  - destruct (resolve_callables reg b); reflexivity.
  - destruct (dict_get reg s); [| reflexivity]. rewrite IH.
    destruct (resolve_callables reg a); simpl; [| reflexivity].
    destruct (resolve_callables reg b); reflexivity.
Qed.

(** ** The pipeline closure *)

Lemma compose_calls_app : forall cf f1 f2 x,
  compose_calls cf (f1 ++ f2) x = res_bind (compose_calls cf f1 x) (compose_calls cf f2).
Proof.
  intros cf f1. induction f1 as [| f f1 IH]; intros f2 x; simpl; [reflexivity |].
  destruct (py_call cf f [x]); simpl; [apply IH | reflexivity].
Qed.

Lemma run_from_trace : forall cf names fns i x,
  exists m, snd (run_from cf names i fns x) = seq i m /\ m <= List.length fns /\
    (forall v, fst (run_from cf names i fns x) = Ok v -> m = List.length fns) /\
    (forall e, fst (run_from cf names i fns x) = Err e ->
       exists j y f exc, m = S j /\ compose_calls cf (firstn j fns) x = Ok y /\
         nth_error fns j = Some f /\ py_call cf f [y] = Err exc).
Proof.
  intros cf names. induction fns as [| f fns IH]; intros i x; simpl.
  - exists 0. split; [reflexivity |]. split; [lia |].
    split; [reflexivity | intros e H; discriminate H].
  - destruct (py_call cf f [x]) as [v | exc] eqn:Hc.
    + destruct (IH (S i) v) as [m [Htr [Hle [Hok Herr]]]].
      destruct (run_from cf names (S i) fns v) as [r tr]. simpl in *.
      exists (S m). split; [rewrite Htr; reflexivity |]. split; [lia |].
      split; [intros v' H; rewrite (Hok v' H); reflexivity |].
      intros e H. destruct (Herr e H) as [j [y [g [exc [Hm [Hy [Hg Hcall]]]]]]].
      exists (S j), y, g, exc. split; [rewrite Hm; reflexivity |].
      simpl. rewrite Hc. simpl. split; [exact Hy |]. split; [exact Hg | exact Hcall].
    + exists 1.
      assert (Hfirst : forall e : exn, exists j y g exc', 1 = S j /\
                compose_calls cf (firstn j (f :: fns)) x = Ok y /\
                nth_error (f :: fns) j = Some g /\ py_call cf g [y] = Err exc').
      { intros _. exists 0, x, f, exc. split; [reflexivity |]. split; [reflexivity |].
        split; [reflexivity | exact Hc]. }
      destruct (isinstance exc Exception); [destruct (nth_error names i) |]; simpl;
        (split; [reflexivity |]); (split; [lia |]);
        (split; [intros v H; discriminate H | intros e _; exact (Hfirst e)]).
Qed.

(** ** The caches *)

Lemma nodup_snoc : forall {A} (l : list A) x, NoDup l -> ~ In x l -> NoDup (l ++ [x]).
Proof.
  intros A l x H Hx. induction H as [| y l Hy H IH]; simpl.
  - constructor; [intros [] | constructor].
  - constructor.
    + intros Hin. apply in_app_or in Hin as [Hin | [Heq | []]]; [exact (Hy Hin) |].
      subst. apply Hx. left. reflexivity.
    + apply IH. intros Hin. apply Hx. right. exact Hin.
Qed.

(** The pipeline cache and the identity counter after a call of
    [init_pipeline]: untouched, or one new pipeline, freshly allocated, added
    under a key that was absent. *)
Lemma init_pipeline_state_cases : forall cf w path st r st',
  init_pipeline cf w path st = (r, st') ->
  (pcache st' = pcache st /\ next_id st' = next_id st) \/
  (exists k p, r = Ok p /\ pc_lookup k (pcache st) = None /\ pid p = next_id st /\
     pcache st' = pcache st ++ [(k, p)] /\ next_id st' = S (next_id st)).
Proof.
  intros cf w path st r st' H. destruct (config_key w path) as [k | e] eqn:Hk.
  - rewrite (init_pipeline_key cf w path st k Hk) in H.
    set (st0 := set_log (log st ++ [EvLoadConfig; EvValidateSteps; EvResolve]) st) in H.
    destruct (load_plugins cf w (fst k) st0) as [r1 st1] eqn:E.
    destruct (load_plugins_state _ _ _ _ _ _ E) as [Hpc1 [Hid1 _]].
    simpl in Hpc1, Hid1.
    destruct r1 as [reg | e1]; [| injection H as _ <-; left; split; assumption].
    destruct (pc_lookup k (pcache st1)) as [q |] eqn:Hq;
      [injection H as _ <-; left; split; assumption |].
    destruct (build_pipeline reg (map PStr (snd k)) st1) as [[p | e2] st2] eqn:Hb.
    + injection H as <- <-.
      destruct (build_pipeline_ok _ _ _ _ _ Hb) as [_ [_ [Hpid [Hpc2 [_ [Hid2 _]]]]]].
      right. exists k, p. simpl. rewrite Hpc2, Hid2, Hpc1, Hid1, Hpid.
      rewrite Hpc1 in Hq. repeat split; assumption.
    + injection H as <- <-.
      destruct (build_pipeline_err_state _ _ _ _ _ Hb) as [Hpc2 [_ Hid2]].
      left. rewrite Hpc2, Hid2. split; assumption.
  - destruct (config_key_err_state cf w path st e Hk) as [l Heq]. rewrite Heq in H.
    injection H as _ <-. left. split; reflexivity.
Qed.

(** ** load_plugins' body *)

Lemma load_plugins_body_valid : forall cf w mn reg,
  load_plugins_body cf w mn = Ok reg -> Forall (fun kv => registry_entry_ok kv = true) reg.
Proof.
  intros cf w mn reg H. unfold load_plugins_body in H.
  destruct mn as [| | | m | | |]; try discriminate H.
  destruct (modules w m) as [attrs | e];
    [| destruct (isinstance e ModuleNotFoundError); discriminate H].
  cbv zeta in H. match type of H with res_bind ?r _ = _ => destruct r as [r0 | e] end;
    simpl in H; [| discriminate H].
  exact (proj2 (validate_registry_ok_items _ _ H)).
Qed.

Lemma config_key_module : forall w path cfg k,
  load_config w path = Ok cfg -> config_key w path = Ok k ->
  fst k = resolve_module_name (env_PLUGINS_MODULE w) (PDict cfg).
Proof.
  intros w path cfg k Hl H. unfold config_key in H. rewrite Hl in H. simpl in H.
  destruct (dict_has cfg (PStr "steps")); [| discriminate H]. simpl in H.
  destruct (match dict_get cfg (PStr "steps") with
            | Some v => validate_steps_list v
            | None => Err (Exn KeyError (MText "steps") None)
            end); simpl in H; [| discriminate H].
  injection H as <-. reflexivity.
Qed.

(** ** Properties of the remaining code *)

(** [init_pipeline] re-raises the exception of [load_config] unchanged, a
    [ConfigError] unless opening or reading the file raised something else,
    after no other component call and with the caches untouched. *)
Theorem init_pipeline_config_load_failure
    (cf : nat -> list PyObj -> Res PyObj) (w : World) (path : string) (st : State) (e : exn) :
  load_config w path = Err e ->
  init_pipeline cf w path st = (Err e, set_log (log st ++ [EvLoadConfig]) st) /\
  (exc_class e = ConfigError \/ fs w path = Some (Unreadable e)).
Proof.
  intros H. split.
  - unfold init_pipeline, bind, emit, lift. cbn -[load_config]. rewrite H. reflexivity.
  - unfold load_config in H. destruct (fs w path) as [[o | | e0] |].
    + destruct o; try (injection H as <-; left; reflexivity). discriminate H.
    + injection H as <-. left. reflexivity.
    + injection H as <-. right. reflexivity.
    + injection H as <-. left. reflexivity.
Qed.

Lemma init_pipeline_config_load_failure_witness :
  load_config test_world "missing.json" = Err (config_error (MConfigNotFound "missing.json")) /\
  init_pipeline fake_call test_world "missing.json" init_state =
    (Err (config_error (MConfigNotFound "missing.json")), set_log [EvLoadConfig] init_state).
Proof.
  assert (H : load_config test_world "missing.json"
              = Err (config_error (MConfigNotFound "missing.json"))) by reflexivity.
  split; [exact H |].
  exact (proj1 (init_pipeline_config_load_failure fake_call test_world "missing.json"
                  init_state _ H)).
Defined.

(** [_validate_registry(reg)] raises nothing exactly when [reg] is a dict
    whose keys are all strings and whose values are all callable, and
    [load_plugins] then returns that dict as it is; every rejection is a
    [RegistryError] without a cause. *)
Theorem validate_registry_accepts (r : PyObj) (d : Registry) :
  (validate_registry r = Ok d <->
   r = PDict d /\ Forall (fun kv => registry_entry_ok kv = true) d) /\
  (forall e, validate_registry r = Err e -> exc_class e = RegistryError /\ exc_cause e = None).
Proof.
  split; [| apply validate_registry_err].
  split; [apply validate_registry_ok_items |].
  intros [-> Hf]. simpl.
  rewrite (proj2 (validate_registry_items_ok d) Hf). reflexivity.
Qed.

(** [_validate_steps_list] accepts exactly the non-empty lists of non-empty
    strings, and returns them as they are (as a list of names). *)
Theorem validate_steps_list_round_trip (v : PyObj) (xs : list string) :
  validate_steps_list v = Ok xs <->
  v = PList (map PStr xs) /\ xs <> [] /\ Forall (fun s => s <> "") xs.
Proof.
  destruct v as [| | | | l | |];
    try (simpl; split; [discriminate | intros [H _]; discriminate H]).
  destruct l as [| s l].
  - simpl. split; [discriminate |]. intros [H [Hne _]].
    destruct xs; [contradiction Hne; reflexivity | discriminate H].
  - change (validate_steps_list (PList (s :: l))) with (validate_steps_from 0 (s :: l)).
    split.
    + intros H. apply validate_steps_from_iff in H as [Hl Hf].
      split; [rewrite Hl; reflexivity |].
      split; [intros ->; discriminate Hl | exact Hf].
    + intros [H [_ Hf]]. injection H as Hl. apply validate_steps_from_iff. split; assumption.
Qed.

(** In any state reached with a fixed set of importable modules, a registry
    that [load_plugins] returns (from its cache or not) is what importing the
    module now gives, and it maps strings to callables only. *)
Theorem load_plugins_result_matches_import
    (cf : nat -> list PyObj -> Res PyObj) (mods : string -> Res (list (string * PyObj)))
    (w : World) (mn : PyObj) (st : State) (reg : Registry) (st' : State) :
  reachable cf mods st -> modules w = mods ->
  load_plugins cf w mn st = (Ok reg, st') ->
  load_plugins_body cf w mn = Ok reg /\ Forall (fun kv => registry_entry_ok kv = true) reg.
Proof.
  intros Hr Hw H.
  destruct (load_plugins_consistent cf mods w mn st (Ok reg) st'
              (reachable_consistent _ _ _ Hr) Hw H) as [_ Hreg].
  assert (Hb : load_plugins_body cf w mn = Ok reg) by exact (Hreg reg eq_refl w Hw).
  split; [exact Hb | exact (load_plugins_body_valid _ _ _ _ Hb)].
Qed.

Lemma load_plugins_result_matches_import_witness :
  load_plugins fake_call test_world (PStr "fake_plugins")
      (snd (init_pipeline fake_call test_world "config.json" init_state)) =
    (Ok fake_registry,
     snd (load_plugins fake_call test_world (PStr "fake_plugins")
            (snd (init_pipeline fake_call test_world "config.json" init_state)))) /\
  load_plugins_body fake_call test_world (PStr "fake_plugins") = Ok fake_registry /\
  Forall (fun kv => registry_entry_ok kv = true) fake_registry.
Proof.
  assert (H : load_plugins fake_call test_world (PStr "fake_plugins")
                (snd (init_pipeline fake_call test_world "config.json" init_state)) =
              (Ok fake_registry,
               snd (load_plugins fake_call test_world (PStr "fake_plugins")
                      (snd (init_pipeline fake_call test_world "config.json" init_state)))))
    by (vm_compute; reflexivity).
  split; [exact H |].
  exact (load_plugins_result_matches_import fake_call fake_modules test_world (PStr "fake_plugins")
           _ _ _ (reachable_init_pipeline _ _ test_world "config.json" init_state
                    (reachable_init _ _) eq_refl) eq_refl H).
Defined.

(** When the module has a [REGISTRY] attribute, [load_plugins] uses it and
    nothing else: two modules with the same [REGISTRY] load the same way,
    whatever [get_registry] or other attributes they have. *)
Theorem load_plugins_body_prefers_REGISTRY
    (cf : nat -> list PyObj -> Res PyObj) (w w' : World) (m : string)
    (attrs attrs' : list (string * PyObj)) (r : PyObj) :
  modules w m = Ok attrs -> modules w' m = Ok attrs' ->
  attr_get attrs "REGISTRY" = Some r -> attr_get attrs' "REGISTRY" = Some r ->
  load_plugins_body cf w (PStr m) = load_plugins_body cf w' (PStr m).
Proof.
  intros H1 H2 H3 H4. unfold load_plugins_body. rewrite H1, H2. cbv zeta.
  rewrite H3, H4. reflexivity.
Qed.

Lemma load_plugins_body_prefers_REGISTRY_witness :
  load_plugins_body fake_call test_world (PStr "fake_plugins") =
  load_plugins_body fake_call both_attrs_world (PStr "fake_plugins").
Proof.
  exact (load_plugins_body_prefers_REGISTRY fake_call test_world both_attrs_world "fake_plugins"
           _ _ fake_plugins_registry eq_refl eq_refl eq_refl eq_refl).
Defined.

(** Every exception out of [load_plugins]' body is a [RegistryError], except
    an import failure other than [ModuleNotFoundError], an exception outside
    [Exception] raised by the registry factory, and the [AttributeError] of
    a module name that is not a string: these propagate unwrapped. *)
Theorem load_plugins_body_error_sources
    (cf : nat -> list PyObj -> Res PyObj) (w : World) (mn : PyObj) (e : exn) :
  load_plugins_body cf w mn = Err e ->
  exc_class e = RegistryError \/
  (isinstance e ModuleNotFoundError = false /\ exists m, mn = PStr m /\ modules w m = Err e) \/
  (isinstance e Exception = false /\ exists f, py_call cf f [] = Err e) \/
  (exc_class e = AttributeError /\ forall m, mn <> PStr m).
Proof.
  intros H. unfold load_plugins_body in H.
  destruct mn as [| | | m | | |];
    try (injection H as <-; right; right; right;
         split; [reflexivity | intros m' Hm'; discriminate Hm']).
  destruct (modules w m) as [attrs | e0] eqn:Hm.
  - cbv zeta in H.
    assert (Hf : forall f msg, res_bind (call_factory cf f msg) validate_registry = Err e ->
              exc_class e = RegistryError \/
              (isinstance e Exception = false /\ exists f, py_call cf f [] = Err e)).
    { intros f msg Hb. unfold call_factory in Hb.
      destruct (py_call cf f []) as [v | e1] eqn:Hp; simpl in Hb.
      - left. exact (proj1 (validate_registry_err _ _ Hb)).
      - destruct (isinstance e1 Exception) eqn:Hx; simpl in Hb; injection Hb as <-.
        + left. reflexivity.
        + right. split; [exact Hx | exists f; exact Hp]. }
    destruct (attr_get attrs "REGISTRY") as [r |].
    + destruct (callable r).
      * destruct (Hf r _ H) as [Hc | Hc]; [left; exact Hc | right; right; left; exact Hc].
      * simpl in H. left. exact (proj1 (validate_registry_err _ _ H)).
    + destruct (attr_get attrs "get_registry") as [g |]; [destruct (callable g) |].
      * destruct (Hf g _ H) as [Hc | Hc]; [left; exact Hc | right; right; left; exact Hc].
      * simpl in H. injection H as <-. left. reflexivity.
      * simpl in H. injection H as <-. left. reflexivity.
  - destruct (isinstance e0 ModuleNotFoundError) eqn:Hx; injection H as <-.
    + left. reflexivity.
    + right. left. split; [exact Hx | exists m; split; [reflexivity | exact Hm]].
Qed.

Lemma load_plugins_body_error_sources_witness :
  load_plugins_body fake_call no_modules_world (PStr "x") =
    Err (registry_error (MModuleNotFound "x") (Some (module_not_found "x"))) /\
  (exc_class (registry_error (MModuleNotFound "x") (Some (module_not_found "x"))) = RegistryError \/
   (isinstance (registry_error (MModuleNotFound "x") (Some (module_not_found "x")))
      ModuleNotFoundError = false /\
    exists m, PStr "x" = PStr m /\
      modules no_modules_world m = Err (registry_error (MModuleNotFound "x") (Some (module_not_found "x")))) \/
   (isinstance (registry_error (MModuleNotFound "x") (Some (module_not_found "x"))) Exception = false /\
    exists f, py_call fake_call f [] = Err (registry_error (MModuleNotFound "x") (Some (module_not_found "x")))) \/
   (exc_class (registry_error (MModuleNotFound "x") (Some (module_not_found "x"))) = AttributeError /\
    forall m, PStr "x" <> PStr m)).
Proof.
  assert (H : load_plugins_body fake_call no_modules_world (PStr "x") =
              Err (registry_error (MModuleNotFound "x") (Some (module_not_found "x"))))
    by reflexivity.
  split; [exact H | exact (load_plugins_body_error_sources fake_call no_modules_world _ _ H)].
Defined.

(** A failure is never cached: a failed [init_pipeline] call leaves the
    pipeline cache and the object identities as they were, and a failed
    [load_plugins] call leaves its cache as it was, without an entry for the
    name, so the next call imports the module again. *)
Theorem failed_calls_not_cached (cf : nat -> list PyObj -> Res PyObj) :
  (forall w path st e st', init_pipeline cf w path st = (Err e, st') ->
     pcache st' = pcache st /\ next_id st' = next_id st) /\
  (forall w mn st e st', load_plugins cf w mn st = (Err e, st') ->
     lru st' = lru st /\ (hashable mn = true -> lru_lookup mn (lru st') = None)).
Proof.
  split.
  - intros w path st e st' H.
    destruct (init_pipeline_state_cases _ _ _ _ _ _ H) as [Hc | [k [p [Hr _]]]];
      [exact Hc | discriminate Hr].
  - intros w mn st e st' H. unfold load_plugins, bind, emit in H.
    remember lru_maxsize as n eqn:Hn in H. simpl in H.
    destruct (hashable mn); simpl in H.
    + destruct (lru_lookup mn (lru st)) as [r |] eqn:Hlk; [discriminate H |].
      destruct (load_plugins_body cf w mn); [discriminate H |].
      injection H as _ <-. simpl. split; [reflexivity | intros _; exact Hlk].
    + injection H as _ <-. simpl. split; [reflexivity | intros Hh; discriminate Hh].
Qed.

(** A configuration whose [module] is an unhashable value such as a
    non-empty JSON list (and no [PLUGINS_MODULE]) makes [init_pipeline]
    raise the [TypeError] of the [lru_cache] wrapper, a class outside the
    module's error taxonomy, before any import and with the caches
    untouched. *)
Theorem init_pipeline_unhashable_module
    (cf : nat -> list PyObj -> Res PyObj) (w : World) (path : string) (st : State)
    (cfg : list (PyObj * PyObj)) (v : PyObj) (k : Key) :
  load_config w path = Ok cfg -> env_PLUGINS_MODULE w = None ->
  dict_get cfg (PStr "module") = Some v -> truthy v = true -> hashable v = false ->
  config_key w path = Ok k ->
  fst k = v /\
  init_pipeline cf w path st =
    (Err (Exn TypeError (MText "unhashable type") None),
     set_log (log st ++ [EvLoadConfig; EvValidateSteps; EvResolve; EvLoadPlugins v]) st).
Proof.
  intros Hl He Hm Ht Hh Hk.
  assert (Hv : fst k = v).
  { rewrite (config_key_module w path cfg k Hl Hk), He. unfold resolve_module_name. simpl.
    rewrite Hm, Ht. reflexivity. }
  split; [exact Hv |].
  rewrite (init_pipeline_key cf w path st k Hk), Hv.
  unfold load_plugins, bind, emit. simpl. rewrite Hh. simpl. rewrite <- app_assoc. reflexivity.
Qed.

Lemma init_pipeline_unhashable_module_witness :
  fst (PList [PStr "a"], ["strip"]) = PList [PStr "a"] /\
  init_pipeline fake_call list_module_world "config.json" init_state =
    (Err (Exn TypeError (MText "unhashable type") None),
     set_log (log init_state ++ [EvLoadConfig; EvValidateSteps; EvResolve;
                                 EvLoadPlugins (PList [PStr "a"])]) init_state).
Proof.
  exact (init_pipeline_unhashable_module fake_call list_module_world "config.json" init_state
           [(PStr "module", PList [PStr "a"]); (PStr "steps", PList [PStr "strip"])]
           (PList [PStr "a"]) (PList [PStr "a"], ["strip"])
           eq_refl eq_refl eq_refl eq_refl eq_refl eq_refl).
Defined.

(** [build_pipeline] with no steps succeeds (unlike [init_pipeline], which
    rejects an empty [steps]) and returns the identity: it invokes nothing
    and returns its input. *)
Theorem build_pipeline_empty_steps_identity (reg : Registry) (st : State) :
  exists p st', build_pipeline reg [] st = (Ok p, st') /\ step_list p = [] /\
    forall cf x, run_pipeline cf p x = (Ok x, []).
Proof.
  exists (mkPipeline (next_id st) [] []),
    (set_next_id (S (next_id st)) (set_log (log st ++ [EvBuild []]) st)).
  split; [reflexivity |]. split; [reflexivity | intros cf x; reflexivity].
Qed.

(** [build_pipeline] succeeds exactly when every step is a non-empty string
    and a key of the registry; the pipeline it then returns keeps the steps,
    binds one callable per step, and is a new object (a fresh identity),
    the caches being untouched. *)
Theorem build_pipeline_success_condition (reg : Registry) (steps : list PyObj) (st : State) :
  ((exists p st', build_pipeline reg steps st = (Ok p, st')) <->
   Forall (fun s => step_entry_ok s = true) steps /\
   Forall (fun s => dict_has reg s = true) steps) /\
  (forall p st', build_pipeline reg steps st = (Ok p, st') ->
     step_list p = steps /\ List.length (callables p) = List.length steps /\
     pid p = next_id st /\ next_id st' = S (next_id st) /\
     pcache st' = pcache st /\ lru st' = lru st).
Proof.
  split; [apply build_pipeline_ok_iff |].
  intros p st' H.
  destruct (build_pipeline_ok _ _ _ _ _ H) as [Hs [Hr [Hpid [Hpc [Hl [Hid _]]]]]].
  split; [exact Hs |]. split; [exact (resolve_callables_length _ _ _ Hr) |].
  repeat split; assumption.
Qed.

(** The cached pipelines are pairwise distinct objects, all older than the
    next allocation: this holds initially and every call of the module's
    functions keeps it, so no two keys ever share a pipeline object. *)
Theorem cached_pipelines_distinct_objects (cf : nat -> list PyObj -> Res PyObj) :
  pids_fresh init_state /\
  (forall w path st, pids_fresh st -> pids_fresh (snd (init_pipeline cf w path st))) /\
  (forall w mn st, pids_fresh st -> pids_fresh (snd (load_plugins cf w mn st))) /\
  (forall reg steps st, pids_fresh st -> pids_fresh (snd (build_pipeline reg steps st))).
Proof.
  unfold pids_fresh. split; [simpl; split; constructor |]. split; [| split].
  - intros w path st [Hnd Hlt]. destruct (init_pipeline cf w path st) as [r st'] eqn:E. simpl.
    destruct (init_pipeline_state_cases _ _ _ _ _ _ E)
      as [[Hpc Hid] | [k [p [_ [_ [Hpid [Hpc Hid]]]]]]]; rewrite Hpc, Hid;
      [split; assumption |].
    split.
    + rewrite map_app. simpl. apply nodup_snoc; [exact Hnd |]. intros Hin.
      apply in_map_iff in Hin as [e [He Hin]]. rewrite Forall_forall in Hlt.
      specialize (Hlt e Hin). rewrite Hpid in He. lia.
    + apply Forall_app. split.
      * eapply Forall_impl; [| exact Hlt]. intros e He. simpl in He. lia.
      * constructor; [simpl; lia | constructor].
  - intros w mn st H. destruct (load_plugins cf w mn st) as [r st'] eqn:E. simpl.
    destruct (load_plugins_state _ _ _ _ _ _ E) as [Hpc [Hid _]]. rewrite Hpc, Hid. exact H.
  - intros reg steps st [Hnd Hlt]. destruct (build_pipeline reg steps st) as [r st'] eqn:E. simpl.
    destruct (build_pipeline_next_id _ _ _ _ _ E) as [Hpc Hid]. rewrite Hpc.
    split; [exact Hnd |]. eapply Forall_impl; [| exact Hlt]. intros e He. simpl in He. lia.
Qed.

(** The pipeline invokes its steps at most once each, in order, from the
    first: all of them when it returns, and up to the first step whose
    callable raised when it fails (its earlier steps having returned). *)
Theorem pipeline_invokes_steps_in_order
    (cf : nat -> list PyObj -> Res PyObj) (p : Pipeline) (x : PyObj) :
  exists m, snd (run_pipeline cf p x) = seq 0 m /\ m <= List.length (callables p) /\
    (forall v, fst (run_pipeline cf p x) = Ok v -> m = List.length (callables p)) /\
    (forall e, fst (run_pipeline cf p x) = Err e ->
       exists j y f exc, m = S j /\ compose_calls cf (firstn j (callables p)) x = Ok y /\
         nth_error (callables p) j = Some f /\ py_call cf f [y] = Err exc).
Proof. unfold run_pipeline. apply run_from_trace. Qed.

(** Splitting the steps splits the pipeline: when [build_pipeline] succeeds
    for [s1 ++ s2], it succeeds for [s1] and for [s2], and the first
    pipeline returns [v] on [x] exactly when the second returns some [y] on
    [x] and the third returns [v] on [y]. *)
Theorem pipeline_split_composition
    (cf : nat -> list PyObj -> Res PyObj) (reg : Registry) (s1 s2 : list PyObj)
    (st : State) (p : Pipeline) (st' : State) :
  build_pipeline reg (s1 ++ s2) st = (Ok p, st') ->
  exists p1 p2,
    fst (build_pipeline reg s1 st) = Ok p1 /\ fst (build_pipeline reg s2 st) = Ok p2 /\
    forall x v, fst (run_pipeline cf p x) = Ok v <->
      exists y, fst (run_pipeline cf p1 x) = Ok y /\ fst (run_pipeline cf p2 y) = Ok v.
Proof.
  intros H.
  destruct (proj1 (build_pipeline_ok_iff reg (s1 ++ s2) st) (ex_intro _ p (ex_intro _ st' H)))
    as [Hn Hd].
  apply Forall_app in Hn as [Hn1 Hn2]. apply Forall_app in Hd as [Hd1 Hd2].
  destruct (proj2 (build_pipeline_ok_iff reg s1 st) (conj Hn1 Hd1)) as [p1 [st1 H1]].
  destruct (proj2 (build_pipeline_ok_iff reg s2 st) (conj Hn2 Hd2)) as [p2 [st2 H2]].
  exists p1, p2. rewrite H1, H2. split; [reflexivity |]. split; [reflexivity |].
  destruct (build_pipeline_ok _ _ _ _ _ H) as [_ [Hr _]].
  destruct (build_pipeline_ok _ _ _ _ _ H1) as [_ [Hr1 _]].
  destruct (build_pipeline_ok _ _ _ _ _ H2) as [_ [Hr2 _]].
  rewrite resolve_callables_app, Hr1, Hr2 in Hr. simpl in Hr. injection Hr as Hc.
  intros x v. unfold run_pipeline. split.
  - intros Hv. apply run_from_compose in Hv. rewrite <- Hc, compose_calls_app in Hv.
    destruct (compose_calls cf (callables p1) x) as [y | e] eqn:Hy; simpl in Hv;
      [| discriminate Hv].
    exists y. split; apply run_from_compose; assumption.
  - intros [y [Hy Hv]]. apply run_from_compose in Hy. apply run_from_compose in Hv.
    apply run_from_compose. rewrite <- Hc, compose_calls_app, Hy. exact Hv.
Qed.

Lemma pipeline_split_composition_witness :
  build_pipeline abc_registry ([PStr "a"] ++ [PStr "b"; PStr "c"]) init_state =
    (Ok abc_pipeline, snd (build_pipeline abc_registry [PStr "a"; PStr "b"; PStr "c"] init_state)) /\
  exists p1 p2,
    fst (build_pipeline abc_registry [PStr "a"] init_state) = Ok p1 /\
    fst (build_pipeline abc_registry [PStr "b"; PStr "c"] init_state) = Ok p2 /\
    forall x v, fst (run_pipeline abc_call abc_pipeline x) = Ok v <->
      exists y, fst (run_pipeline abc_call p1 x) = Ok y /\ fst (run_pipeline abc_call p2 y) = Ok v.
Proof.
  assert (H : build_pipeline abc_registry ([PStr "a"] ++ [PStr "b"; PStr "c"]) init_state =
    (Ok abc_pipeline, snd (build_pipeline abc_registry [PStr "a"; PStr "b"; PStr "c"] init_state)))
    by (vm_compute; reflexivity).
  split; [exact H |].
  exact (pipeline_split_composition abc_call abc_registry [PStr "a"] [PStr "b"; PStr "c"]
           init_state abc_pipeline _ H).
Defined.

(** ** The error taxonomy, with the messages and causes *)

Lemma check_step_names_err_form : forall steps i e,
  check_step_names i steps = Err e ->
  exists j s, e = pipeline_error (MInvalidStepName j s) None.
Proof.
  induction steps as [| s steps IH]; intros i e H; simpl in H; [discriminate H |].
  destruct s; try (injection H as <-; eexists; eexists; reflexivity).
  destruct (truthy (PStr s));
    [eapply IH; exact H | injection H as <-; eexists; eexists; reflexivity].
Qed.

Lemma build_pipeline_err_form : forall reg steps st e st',
  build_pipeline reg steps st = (Err e, st') ->
  exc_class e = PipelineError /\ exc_cause e = None /\
  ((exists i s, exc_msg e = MInvalidStepName i s) \/
   (exists missing available, exc_msg e = MUnknownSteps missing available)).
Proof.
  intros reg steps st e st' H. unfold build_pipeline, bind, emit, lift in H.
  destruct (check_step_names 0 steps) as [[] | e0] eqn:Hc.
  - destruct (missing_steps reg steps) as [| m ms] eqn:Hm.
    + destruct (resolve_callables_ok reg steps Hm) as [fns [Hr _]].
      rewrite Hr in H. discriminate H.
    + unfold raise in H. injection H as <- _. simpl.
      split; [reflexivity | split; [reflexivity |]].
      right. eexists; eexists; reflexivity.
  - injection H as <- _.
    destruct (check_step_names_err_form _ _ _ Hc) as [j [s ->]]. simpl.
    split; [reflexivity | split; [reflexivity |]].
    left. eexists; eexists; reflexivity.
Qed.

Lemma run_pipeline_err_form : forall cf reg steps st p st' x e tr,
  build_pipeline reg steps st = (Ok p, st') ->
  run_pipeline cf p x = (Err e, tr) ->
  exists j y f exc,
    nth_error (callables p) j = Some f /\
    compose_calls cf (firstn j (callables p)) x = Ok y /\
    py_call cf f [y] = Err exc /\
    ((isinstance exc Exception = true /\
      exists name, nth_error steps j = Some name /\
        e = pipeline_error (MStepError name) (Some exc)) \/
     (isinstance exc Exception = false /\ e = exc)).
Proof.
  intros cf reg steps st p st' x e tr Hb H.
  destruct (build_pipeline_ok _ _ _ _ _ Hb) as [Hs [Hr _]].
  apply resolve_callables_length in Hr.
  unfold run_pipeline in H.
  destruct (run_from_trace cf (step_list p) (callables p) 0 x) as [m [_ [_ [_ Herr]]]].
  rewrite H in Herr.
  destruct (Herr e eq_refl) as [j [y [f [exc [_ [Hy [Hf Hcall]]]]]]].
  assert (Hlt : j < List.length (step_list p)).
  { rewrite Hs, <- Hr. apply nth_error_Some. rewrite Hf. discriminate. }
  destruct (nth_error (step_list p) j) as [name |] eqn:Hn;
    [| apply nth_error_None in Hn; lia].
  rewrite (run_from_step_failure cf (callables p) (step_list p) 0 x j y f exc name
             Hy Hf Hcall Hn) in H.
  exists j, y, f, exc. split; [exact Hf |]. split; [exact Hy |]. split; [exact Hcall |].
  rewrite Hs in Hn.
  destruct (isinstance exc Exception); injection H as <- _.
  - left. split; [reflexivity |]. exists name. split; [exact Hn | reflexivity].
  - right. split; reflexivity.
Qed.

(** C5 (amended): [ConfigError], [RegistryError] and [PipelineError] are
    subclasses of the common base [PluginLoaderError] and none is a
    subclass of another. Every failure of [build_pipeline] is a
    [PipelineError] without a cause, whose message is the invalid-name or
    the unknown-steps message. Every failure of a built pipeline comes from
    the first step whose callable raised: an [Exception] is wrapped in a
    [PipelineError] naming that step with the exception as its cause, any
    other exception propagates unchanged. So a construction failure and an
    execution failure of class [PipelineError] always differ in their
    message and in their cause. *)
Theorem error_taxonomy_three_classes :
  (forall c, In c [ConfigError; RegistryError; PipelineError] ->
     issubclass c PluginLoaderError = true) /\
  (forall c d, In c [ConfigError; RegistryError; PipelineError] ->
     In d [ConfigError; RegistryError; PipelineError] -> c <> d ->
     issubclass c d = false) /\
  (forall reg steps st e st',
     build_pipeline reg steps st = (Err e, st') ->
     exc_class e = PipelineError /\ exc_cause e = None /\
     ((exists i s, exc_msg e = MInvalidStepName i s) \/
      (exists missing available, exc_msg e = MUnknownSteps missing available))) /\
  (forall cf reg steps st p st' x e tr,
     build_pipeline reg steps st = (Ok p, st') ->
     run_pipeline cf p x = (Err e, tr) ->
     exists j y f exc,
       nth_error (callables p) j = Some f /\
       compose_calls cf (firstn j (callables p)) x = Ok y /\
       py_call cf f [y] = Err exc /\
       ((isinstance exc Exception = true /\
         exists name, nth_error steps j = Some name /\
           e = pipeline_error (MStepError name) (Some exc)) \/
        (isinstance exc Exception = false /\ e = exc))) /\
  (forall reg1 steps1 st1 e1 st1' cf reg2 steps2 st2 p st2' x e2 tr,
     build_pipeline reg1 steps1 st1 = (Err e1, st1') ->
     build_pipeline reg2 steps2 st2 = (Ok p, st2') ->
     run_pipeline cf p x = (Err e2, tr) ->
     exc_class e2 = PipelineError ->
     exc_msg e1 <> exc_msg e2 /\ exc_cause e1 <> exc_cause e2).
Proof.
  split; [| split; [| split; [| split]]].
  - intros c Hc. simpl in Hc.
    destruct Hc as [<- | [<- | [<- | []]]]; reflexivity.
  - intros c d Hc Hd Hne. simpl in Hc, Hd.
    destruct Hc as [<- | [<- | [<- | []]]];
    destruct Hd as [<- | [<- | [<- | []]]];
    solve [reflexivity | contradiction Hne; reflexivity].
  - exact build_pipeline_err_form.
  - exact run_pipeline_err_form.
  - intros reg1 steps1 st1 e1 st1' cf reg2 steps2 st2 p st2' x e2 tr H1 H2 Hr Hcl.
    destruct (build_pipeline_err_form _ _ _ _ _ H1) as [_ [Hc1 Hm1]].
    destruct (run_pipeline_err_form _ _ _ _ _ _ _ _ _ H2 Hr)
      as [j [y [f [exc [_ [_ [_ [[_ [name [_ ->]]] | [Hx ->]]]]]]]]].
    + simpl. rewrite Hc1.
      split; [| discriminate].
      destruct Hm1 as [[i [s ->]] | [ms [av ->]]]; discriminate.
    + unfold isinstance in Hx. rewrite Hcl in Hx. discriminate Hx.
Qed.
